(** * Fort Bend County brand scraper: a shallow embedding

    Source: [texas_brand_scraper/scrape_texas_brands_FortBendCounty.py].

    The pure part of the script (string normalisation, table discovery, header
    detection, row-to-record mapping, JSON serialisation) is embedded as Rocq
    functions over a snapshot of the DOM.  The browser and the file system are
    an interface of fallible operations over an abstract world; the workflow
    steps are written in a state-and-exception monad that also records which
    operations were invoked. *)

From Stdlib Require Import Decimal DecimalZ.
From Stdlib Require Import NArith ZArith Lia Bool String Ascii Arith List Sorted.
Import ListNotations.

Set Implicit Arguments.
#[local] Set Warnings "-register-all".

(** ** Python strings

    A Python [str] is a sequence of code points; surrogate code points are
    legal elements of a [str]. *)

Definition pystr := list N.

Definition py (s : string) : pystr :=
  map N_of_ascii (list_ascii_of_string s).

(** [str.isspace] on one code point (the Unicode white-space set of CPython). *)
Definition py_isspace (c : N) : bool :=
  ((9 <=? c) && (c <=? 13) || (28 <=? c) && (c <=? 32)
   || (c =? 133) || (c =? 160) || (c =? 5760)
   || (8192 <=? c) && (c <=? 8202)
   || (c =? 8232) || (c =? 8233) || (c =? 8239) || (c =? 8287)
   || (c =? 12288))%N.

Fixpoint lstrip (s : pystr) : pystr :=
  match s with
  | [] => []
  | c :: s' => if py_isspace c then lstrip s' else s
  end.

Definition rstrip (s : pystr) : pystr := rev (lstrip (rev s)).

(** [s.strip()] *)
Definition strip (s : pystr) : pystr := rstrip (lstrip s).

Fixpoint startswith (p s : pystr) : bool :=
  match p, s with
  | [], _ => true
  | _ :: _, [] => false
  | a :: p', b :: s' => (a =? b)%N && startswith p' s'
  end.

Fixpoint str_eqb (a b : pystr) : bool :=
  match a, b with
  | [], [] => true
  | x :: a', y :: b' => (x =? y)%N && str_eqb a' b'
  | _, _ => false
  end.

(** [sub in s] *)
Fixpoint contains (sub s : pystr) : bool :=
  startswith sub s ||
  match s with
  | [] => false
  | _ :: s' => contains sub s'
  end.

(** [s.replace(old, new)] for a non-empty [old]: occurrences are replaced from
    left to right without overlap.  [skip] counts the code points of a matched
    occurrence that are still to be dropped. *)
Fixpoint replace_from (old new : pystr) (skip : nat) (s : pystr) : pystr :=
  match s with
  | [] => []
  | c :: s' =>
      match skip with
      | S k => replace_from old new k s'
      | O =>
          if startswith old s
          then new ++ replace_from old new (length old - 1) s'
          else c :: replace_from old new 0 s'
      end
  end.

Definition replace (old new s : pystr) : pystr := replace_from old new 0 s.

Definition nbsp : pystr := py "&nbsp;".
Definition space : pystr := py " ".

(** ** Exceptions and results

    Only exceptions below [Exception] are modelled: these are the ones the
    script's [except Exception] handlers catch. *)

Inductive exn : Type :=
| PwTimeoutError
| PwError (msg : pystr)
| RuntimeError (msg : pystr)
| OSError (msg : pystr)
| ValueError (msg : pystr).

Inductive result (A : Type) : Type :=
| Ok (a : A)
| Err (e : exn).

Arguments Ok {A} a.
Arguments Err {A} e.

Definition rbind {A B} (r : result A) (k : A -> result B) : result B :=
  match r with
  | Ok a => k a
  | Err e => Err e
  end.

Notation "x <-- r ;; k" := (rbind r (fun x => k))
  (at level 61, r at next level, right associativity).

(** ** DOM snapshot

    An element handle is represented by what its queries answer.  A row lists
    its [<td>] and [<th>] descendants in document order; every query may raise. *)

Inductive tag : Type := TD | TH.

Record Cell : Type := mkCell {
  cell_tag : tag;
  cell_inner_text : result pystr }.

Record Row : Type := mkRow {
  row_inner_text : result pystr;
  row_cells : result (list Cell) }.

Record Table : Type := mkTable {
  table_rows : result (list Row) }.

Definition is_td (c : Cell) : bool :=
  match cell_tag c with TD => true | TH => false end.

(** [row.query_selector_all("td, th")] *)
Definition query_td_th (r : Row) : result (list Cell) := row_cells r.

(** [row.query_selector_all("td")] *)
Definition query_td (r : Row) : result (list Cell) :=
  cs <-- row_cells r ;; Ok (filter is_td cs).

(** ** Records *)

Record BrandRecord : Type := mkRecord {
  row_number : nat;
  instrument_number : pystr;
  date : pystr;
  doc_type : pystr;
  grantor : pystr;
  grantee : pystr;
  legal_description : pystr;
  raw_data : list pystr }.

(** The named field mapped from cell index [k] (lines 198-203). *)
Definition named_field (k : nat) (r : BrandRecord) : option pystr :=
  match k with
  | 0 => Some (instrument_number r)
  | 1 => Some (date r)
  | 2 => Some (doc_type r)
  | 3 => Some (grantor r)
  | 4 => Some (grantee r)
  | 5 => Some (legal_description r)
  | _ => None
  end.

(** ** Row-to-record mapping (scrape_results_table, lines 179-210) *)

(** Lines 188-193: the text of one cell, or the empty string when reading the
    cell raises. *)
Definition cell_text (c : Cell) : pystr :=
  match cell_inner_text c with
  | Ok text => strip (replace nbsp space text)
  | Err _ => []
  end.

(** [cell_texts[k] if len(cell_texts) > k else ""] *)
Definition get_or_empty (k : nat) (l : list pystr) : pystr :=
  if k <? length l then nth k l [] else [].

Definition make_record (i : nat) (cell_texts : list pystr) : BrandRecord :=
  {| row_number := i + 1;
     instrument_number := get_or_empty 0 cell_texts;
     date := get_or_empty 1 cell_texts;
     doc_type := get_or_empty 2 cell_texts;
     grantor := get_or_empty 3 cell_texts;
     grantee := get_or_empty 4 cell_texts;
     legal_description := get_or_empty 5 cell_texts;
     raw_data := cell_texts |}.

(** Body of the loop at line 179 for row [i]: the records appended to [data].
    An exception of the row's cell query is caught by the handler at line 208. *)
Definition parse_row (i : nat) (row : Row) : list BrandRecord :=
  match query_td row with
  | Err _ => []
  | Ok cells =>
      if 3 <=? length cells
      then [make_record i (map cell_text cells)]
      else []
  end.

Definition parse_index (rows : list Row) (i : nat) : list BrandRecord :=
  match nth_error rows i with
  | Some row => parse_row i row
  | None => []
  end.

(** [for i in range(start_row, len(rows))] *)
Definition parse_rows (rows : list Row) (start_row : nat) : list BrandRecord :=
  flat_map (parse_index rows) (seq start_row (length rows - start_row)).

(** ** Header detection (lines 171-175) *)

Definition header_keywords : list pystr :=
  [py "Instrument"; py "Date"; py "Doc Type"].

Definition has_header_keyword (first_row_text : pystr) : bool :=
  existsb (fun header => contains header first_row_text) header_keywords.

Definition nonempty (s : pystr) : bool :=
  match s with [] => false | _ :: _ => true end.

Definition detect_start_row (rows : list Row) : result nat :=
  match rows with
  | [] => Ok 0
  | r0 :: _ =>
      t <-- row_inner_text r0 ;;
      if nonempty t then
        first_row_text <-- row_inner_text r0 ;;
        Ok (if has_header_keyword first_row_text then 1 else 0)
      else Ok 0
  end.

(** ** Table discovery (find_results_table, lines 121-145) *)

(** Line 139 *)
Definition meaningful (cell_text : pystr) : bool :=
  nonempty (strip cell_text) && negb (str_eqb (strip cell_text) nbsp).

(** Lines 137-140: the cells of one sampled row, in order.  Reading a cell may
    raise, which leaves the scan of this table. *)
Fixpoint scan_cells (cells : list Cell) : result bool :=
  match cells with
  | [] => Ok false
  | cell :: rest =>
      cell_text <-- cell_inner_text cell ;;
      if meaningful cell_text then Ok true else scan_cells rest
  end.

(** Lines 135-140 over the sampled rows. *)
Fixpoint scan_rows (rows : list Row) : result bool :=
  match rows with
  | [] => Ok false
  | row :: rest =>
      row_cells <-- query_td row ;;
      found <-- scan_cells row_cells ;;
      if found then Ok true else scan_rows rest
  end.

(** [rows[1:3]] *)
Definition sampled_rows (rows : list Row) : list Row := firstn 2 (skipn 1 rows).

(** The body of the [try] at line 124 for one table: [Ok (Some (num_rows,
    num_cols))] when line 140 returns, [Ok None] when the body ends or
    continues without returning, [Err] when it raises. *)
Definition check_table (table : Table) : result (option (nat * nat)) :=
  rows <-- table_rows table ;;
  if length rows <=? 1 then Ok None else
  match rows with
  | [] => Ok None
  | row0 :: _ =>
      first_row_cells <-- query_td_th row0 ;;
      if length first_row_cells <? 3 then Ok None else
      found <-- scan_rows (sampled_rows rows) ;;
      if found then Ok (Some (length rows, length first_row_cells))
      else Ok None
  end.

(** [for i, table in enumerate(tables)], from index [i] on. *)
Fixpoint find_from (i : nat) (tables : list Table)
  : option (Table * nat * nat * nat) :=
  match tables with
  | [] => None
  | table :: rest =>
      match check_table table with
      | Ok (Some (num_rows, num_cols)) => Some (table, i, num_rows, num_cols)
      | Ok None | Err _ => find_from (S i) rest
      end
  end.

Definition find_results_table (tables : list Table)
  : option (Table * nat * nat * nat) :=
  find_from 0 tables.

(** ** Extraction from the selected table (lines 158-213)

    The part of [scrape_results_table] that follows the page queries: it
    raises only where no inner handler applies (the two row queries of lines
    167 and 172-173). *)
Definition extract_records (tables : list Table) : result (list BrandRecord) :=
  match find_results_table tables with
  | None => Ok []
  | Some (results_table, _, _, _) =>
      rows <-- table_rows results_table ;;
      start_row <-- detect_start_row rows ;;
      Ok (parse_rows rows start_row)
  end.


(** ** JSON values and [json.dumps]

    The values [json.dumps] meets in this script: a record is a [dict] of an
    [int], six [str] and a [list] of [str].  Floats do not occur and are not
    modelled.  An object keeps its members as an association list in insertion
    order, as a Python [dict] does. *)

Inductive json : Type :=
| JNull
| JBool (b : bool)
| JInt (z : Z)
| JStr (s : pystr)
| JArr (items : list json)
| JObj (members : list (pystr * json)).

(** The dict literal of lines 196-205. *)
Definition record_dict (r : BrandRecord) : json :=
  JObj [ (py "row_number", JInt (Z.of_nat (row_number r)));
         (py "instrument_number", JStr (instrument_number r));
         (py "date", JStr (date r));
         (py "doc_type", JStr (doc_type r));
         (py "grantor", JStr (grantor r));
         (py "grantee", JStr (grantee r));
         (py "legal_description", JStr (legal_description r));
         (py "raw_data", JArr (map JStr (raw_data r))) ].

(** [data[0].keys()] *)
Definition record_keys : list pystr :=
  [ py "row_number"; py "instrument_number"; py "date"; py "doc_type";
    py "grantor"; py "grantee"; py "legal_description"; py "raw_data" ].

(** Lower-case hexadecimal digit, as ['{0:04x}'.format] prints it. *)
Definition hexdigit (d : N) : N := (if d <? 10 then 48 + d else 87 + d)%N.

Definition hex4 (n : N) : pystr :=
  [ hexdigit (n / 4096 mod 16); hexdigit (n / 256 mod 16);
    hexdigit (n / 16 mod 16); hexdigit (n mod 16) ]%N.

Definition u_escape (n : N) : pystr := 92%N :: 117%N :: hex4 n.

(** [ESCAPE_ASCII] with [ESCAPE_DCT] of [json.encoder]: what one code point
    becomes inside a string literal when [ensure_ascii] is on (the default). *)
Definition escape_char (c : N) : pystr :=
  (if c =? 34 then [92; 34]
   else if c =? 92 then [92; 92]
   else if c =? 10 then [92; 110]
   else if c =? 13 then [92; 114]
   else if c =? 9 then [92; 116]
   else if c =? 8 then [92; 98]
   else if c =? 12 then [92; 102]
   else if (32 <=? c) && (c <=? 126) then [c]
   else if c <? 65536 then u_escape c
   else
     let n := c - 65536 in
     u_escape (N.lor 55296 (N.land (N.shiftr n 10) 1023))
       ++ u_escape (N.lor 56320 (N.land n 1023)))%N.

Definition encode_string (s : pystr) : pystr :=
  34%N :: flat_map escape_char s ++ [34%N].

Fixpoint uint_chars (d : Decimal.uint) : pystr :=
  match d with
  | Decimal.Nil => []
  | Decimal.D0 d' => 48%N :: uint_chars d'
  | Decimal.D1 d' => 49%N :: uint_chars d'
  | Decimal.D2 d' => 50%N :: uint_chars d'
  | Decimal.D3 d' => 51%N :: uint_chars d'
  | Decimal.D4 d' => 52%N :: uint_chars d'
  | Decimal.D5 d' => 53%N :: uint_chars d'
  | Decimal.D6 d' => 54%N :: uint_chars d'
  | Decimal.D7 d' => 55%N :: uint_chars d'
  | Decimal.D8 d' => 56%N :: uint_chars d'
  | Decimal.D9 d' => 57%N :: uint_chars d'
  end.

(** [str(z)] for a Python [int].  (CPython refuses to print an [int] of more
    than 4300 digits; a row number counts rows of a table held in memory and
    stays far below.) *)
Definition encode_int (z : Z) : pystr :=
  match Z.to_int z with
  | Decimal.Pos d => uint_chars d
  | Decimal.Neg d => 45%N :: uint_chars d
  end.

(** [sep.join(parts)] *)
Fixpoint join (sep : pystr) (parts : list pystr) : pystr :=
  match parts with
  | [] => []
  | [p] => p
  | p :: rest => p ++ sep ++ join sep rest
  end.

Definition item_separator : pystr := py ", ".
Definition key_separator : pystr := py ": ".

(** [json.dumps(v)] with the default separators. *)
Fixpoint json_dumps (v : json) : pystr :=
  match v with
  | JNull => py "null"
  | JBool true => py "true"
  | JBool false => py "false"
  | JInt z => encode_int z
  | JStr s => encode_string s
  | JArr items => 91%N :: join item_separator (map json_dumps items) ++ [93%N]
  | JObj members =>
      123%N ::
      join item_separator
        (map (fun kv => encode_string (fst kv) ++ key_separator ++ json_dumps (snd kv))
             members)
      ++ [125%N]
  end.

(** Line 243: the text written for one record. *)
Definition jsonl_line (r : BrandRecord) : pystr :=
  json_dumps (record_dict r) ++ [10%N].

(** ** [json.loads]

    The decoder of [json.decoder] and [json.scanner] restricted to documents
    without floats: [None] stands for a document the decoder rejects or one
    that holds a float. *)

Definition hexval (h : N) : option N :=
  (if (48 <=? h) && (h <=? 57) then Some (h - 48)
   else if (97 <=? h) && (h <=? 102) then Some (h - 87)
   else if (65 <=? h) && (h <=? 70) then Some (h - 55)
   else None)%N.

Definition decode_hex4 (h1 h2 h3 h4 : N) : option N :=
  match hexval h1, hexval h2, hexval h3, hexval h4 with
  | Some a, Some b, Some c, Some d => Some (((a * 16 + b) * 16 + c) * 16 + d)%N
  | _, _, _, _ => None
  end.

Definition is_high_surrogate (c : N) : bool := ((55296 <=? c) && (c <=? 56319))%N.
Definition is_low_surrogate (c : N) : bool := ((56320 <=? c) && (c <=? 57343))%N.

(** [0x10000 + (((uni - 0xd800) << 10) | (uni2 - 0xdc00))] *)
Definition join_surrogates (uni uni2 : N) : N :=
  (65536 + N.lor (N.shiftl (uni - 55296) 10) (uni2 - 56320))%N.

(** The [BACKSLASH] table. *)
Definition unescape (e : N) : option N :=
  (if e =? 34 then Some 34
   else if e =? 92 then Some 92
   else if e =? 47 then Some 47
   else if e =? 98 then Some 8
   else if e =? 102 then Some 12
   else if e =? 110 then Some 10
   else if e =? 114 then Some 13
   else if e =? 116 then Some 9
   else None)%N.

Definition push (c : N) (r : option (pystr * pystr)) : option (pystr * pystr) :=
  match r with
  | Some (str, rest) => Some (c :: str, rest)
  | None => None
  end.

(** [py_scanstring] in strict mode, from just after the opening quote: the
    decoded string and the text after the closing quote. *)
Fixpoint scanstring (s : pystr) : option (pystr * pystr) :=
  match s with
  | [] => None
  | c :: s1 =>
      if (c =? 34)%N then Some ([], s1)
      else if (c =? 92)%N then
        match s1 with
        | [] => None
        | e :: s2 =>
            if (e =? 117)%N then
              match s2 with
              | h1 :: h2 :: h3 :: h4 :: s6 =>
                  match decode_hex4 h1 h2 h3 h4 with
                  | None => None
                  | Some uni =>
                      if is_high_surrogate uni then
                        match s6 with
                        | b :: u :: s8 =>
                            if ((b =? 92) && (u =? 117))%N then
                              match s8 with
                              | l1 :: l2 :: l3 :: l4 :: s12 =>
                                  match decode_hex4 l1 l2 l3 l4 with
                                  | None => None
                                  | Some uni2 =>
                                      if is_low_surrogate uni2
                                      then push (join_surrogates uni uni2) (scanstring s12)
                                      else push uni (scanstring s6)
                                  end
                              | _ => None
                              end
                            else push uni (scanstring s6)
                        | _ => push uni (scanstring s6)
                        end
                      else push uni (scanstring s6)
                  end
              | _ => None
              end
            else
              match unescape e with
              | Some c' => push c' (scanstring s2)
              | None => None
              end
        end
      else if (c <? 32)%N then None
      else push c (scanstring s1)
  end.

(** The [WHITESPACE] pattern: space, tab, line feed, carriage return. *)
Definition json_ws (c : N) : bool :=
  ((c =? 32) || (c =? 9) || (c =? 10) || (c =? 13))%N.

Fixpoint skip_ws (s : pystr) : pystr :=
  match s with
  | [] => []
  | c :: s' => if json_ws c then skip_ws s' else s
  end.

Definition digit_of (c : N) : option (Decimal.uint -> Decimal.uint) :=
  (if c =? 48 then Some Decimal.D0
   else if c =? 49 then Some Decimal.D1
   else if c =? 50 then Some Decimal.D2
   else if c =? 51 then Some Decimal.D3
   else if c =? 52 then Some Decimal.D4
   else if c =? 53 then Some Decimal.D5
   else if c =? 54 then Some Decimal.D6
   else if c =? 55 then Some Decimal.D7
   else if c =? 56 then Some Decimal.D8
   else if c =? 57 then Some Decimal.D9
   else None)%N.

(** The longest run of decimal digits at the head of [s]. *)
Fixpoint scan_digits (s : pystr) : Decimal.uint * pystr :=
  match s with
  | [] => (Decimal.Nil, [])
  | c :: s' =>
      match digit_of c with
      | Some d => let (u, rest) := scan_digits s' in (d u, rest)
      | None => (Decimal.Nil, s)
      end
  end.

(** Does a fraction or an exponent follow?  Then the number is a float. *)
Definition float_follows (s : pystr) : bool :=
  match s with
  | c :: _ => ((c =? 46) || (c =? 101) || (c =? 69))%N
  | [] => false
  end.

(** [NUMBER_RE]: an optional minus sign, then either a single zero or a
    non-zero digit followed by digits; no fraction and no exponent. *)
Definition scan_int (s : pystr) : option (Z * pystr) :=
  let (neg, s1) :=
    match s with
    | c :: r => if (c =? 45)%N then (true, r) else (false, s)
    | [] => (false, s)
    end in
  match s1 with
  | [] => None
  | c :: r =>
      if (c =? 48)%N then
        if float_follows r then None else Some (0%Z, r)
      else
        match scan_digits s1 with
        | (Decimal.Nil, _) => None
        | (u, rest) =>
            if float_follows rest then None
            else Some (Z.of_int (if neg then Decimal.Neg u else Decimal.Pos u), rest)
        end
  end.

Definition literal (word : pystr) (v : json) (s : pystr) : option (json * pystr) :=
  if startswith word s then Some (v, skipn (length word) s) else None.

(** What the decoder is reading: one value, the elements of an array from the
    first one to the closing bracket, or the members of an object from the
    first key to the closing brace. *)
Inductive item : Type := IValue | IElems | IMembers.

(** [scan_once], [JSONArray] and [JSONObject]; [fuel] bounds the depth of the
    calls. *)
Fixpoint parse (fuel : nat) (it : item) (s : pystr) : option (json * pystr) :=
  match fuel with
  | O => None
  | S f =>
      match it with
      | IValue =>
          match s with
          | [] => None
          | c :: r =>
              if (c =? 34)%N then
                match scanstring r with
                | Some (str, rest) => Some (JStr str, rest)
                | None => None
                end
              else if (c =? 91)%N then
                match skip_ws r with
                | [] => None
                | c1 :: r1 =>
                    if (c1 =? 93)%N then Some (JArr [], r1)
                    else parse f IElems (c1 :: r1)
                end
              else if (c =? 123)%N then
                match skip_ws r with
                | [] => None
                | c1 :: r1 =>
                    if (c1 =? 125)%N then Some (JObj [], r1)
                    else parse f IMembers (c1 :: r1)
                end
              else if (c =? 110)%N then literal (py "null") JNull s
              else if (c =? 116)%N then literal (py "true") (JBool true) s
              else if (c =? 102)%N then literal (py "false") (JBool false) s
              else
                match scan_int s with
                | Some (z, rest) => Some (JInt z, rest)
                | None => None
                end
          end
      | IElems =>
          match parse f IValue s with
          | None => None
          | Some (v, r) =>
              match skip_ws r with
              | [] => None
              | c :: r1 =>
                  if (c =? 93)%N then Some (JArr [v], r1)
                  else if (c =? 44)%N then
                    match parse f IElems (skip_ws r1) with
                    | Some (JArr vs, rest) => Some (JArr (v :: vs), rest)
                    | _ => None
                    end
                  else None
              end
          end
      | IMembers =>
          match s with
          | [] => None
          | q :: r =>
              if (q =? 34)%N then
                match scanstring r with
                | None => None
                | Some (key, r1) =>
                    match skip_ws r1 with
                    | [] => None
                    | colon :: r2 =>
                        if (colon =? 58)%N then
                          match parse f IValue (skip_ws r2) with
                          | None => None
                          | Some (v, r3) =>
                              match skip_ws r3 with
                              | [] => None
                              | c :: r4 =>
                                  if (c =? 125)%N then Some (JObj [(key, v)], r4)
                                  else if (c =? 44)%N then
                                    match parse f IMembers (skip_ws r4) with
                                    | Some (JObj ms, rest) => Some (JObj ((key, v) :: ms), rest)
                                    | _ => None
                                    end
                                  else None
                              end
                          end
                        else None
                    end
                end
              else None
          end
      end
  end.

(** [json.loads(s)]: leading white space, one value, trailing white space and
    nothing else. *)
Definition json_loads (s : pystr) : option json :=
  match parse (S (length s)) IValue (skip_ws s) with
  | Some (v, rest) =>
      match skip_ws rest with
      | [] => Some v
      | _ :: _ => None
      end
  | None => None
  end.

(** ** Text that survives the JSON round trip

    An element of a [str] is a code point below [0x110000].  The decoder joins
    a high surrogate escape that is followed by a low surrogate escape into
    one code point, so a [str] that holds such a pair of separate code points
    is not read back as it was. *)

Definition is_code_point (c : N) : bool := (c <? 1114112)%N.

Fixpoint no_surrogate_pair (s : pystr) : bool :=
  match s with
  | [] => true
  | c :: s' =>
      match s' with
      | d :: _ => negb (is_high_surrogate c && is_low_surrogate d)
      | [] => true
      end && no_surrogate_pair s'
  end.

Definition json_text (s : pystr) : bool :=
  forallb is_code_point s && no_surrogate_pair s.

Definition record_text_ok (r : BrandRecord) : bool :=
  json_text (instrument_number r) && json_text (date r) && json_text (doc_type r)
  && json_text (grantor r) && json_text (grantee r)
  && json_text (legal_description r) && forallb json_text (raw_data r).

(** What may follow a number: no digit, no fraction, no exponent. *)
Definition ends_number (rest : pystr) : Prop :=
  match rest with
  | c :: _ => digit_of c = None /\ float_follows rest = false
  | [] => True
  end.

(** [v] is read back from its dump with fuel [n] or more. *)
Definition parses (n : nat) (v : json) : Prop :=
  forall (f : nat) (t : pystr),
    n <= f -> ends_number t ->
    parse f IValue (json_dumps v ++ t) = Some (v, t)
    /\ skip_ws (json_dumps v ++ t) = json_dumps v ++ t.

(** One member of an object as [json.dumps] writes it. *)
Definition dump_member (kv : pystr * json) : pystr :=
  encode_string (fst kv) ++ key_separator ++ json_dumps (snd kv).

(** ** Configuration (lines 16-25) *)

Definition SEARCH_ENTRY_URL : pystr :=
  py "https://ccweb.co.fort-bend.tx.us/RealEstate/SearchEntry.aspx".
Definition SEARCH_RESULTS_URL : pystr :=
  py "https://ccweb.co.fort-bend.tx.us/RealEstate/SearchResults.aspx".
Definition BRAND_CHECKBOX_ID : pystr := py "#cphNoMargin_f_dclDocType_14".
Definition OUTPUT_CSV : pystr := py "fort_bend_brands.csv".
Definition OUTPUT_JSONL : pystr := py "fort_bend_brands.jsonl".

Definition CHECKBOX_TIMEOUT : N := 10000.
Definition SEARCH_MODAL_TIMEOUT : N := 60000.
Definition TABLE_WAIT_TIMEOUT : N := 10000.

Definition results_page : pystr := py "SearchResults.aspx".
Definition searching_text : pystr := py "text=Searching for records".

(** Lines 65-70 *)
Definition search_selectors : list pystr :=
  [ py "input[type='submit'][value*='Search']";
    py "button:has-text('Search')";
    py "input[type='button'][value*='Search']";
    py "input[value='Search']" ].

(** ** The browser and file-system interface

    [World] is whatever the operations act on: the browser, the remote site,
    the clock and the disk.  An operation returns its answer, or the exception
    it raises, with the world it leaves.  [page.url] is an attribute read and
    cannot raise.  The script drives one browser, one context and one page, so
    those handles stay implicit; [Elem] is the handle of the element that
    [wait_for_selector] returns. *)

(** The [state] argument of [wait_for_selector]. *)
Inductive selector_state : Type := StateDefault | StateHidden.

Class Browser (World Elem : Type) : Type := {
  playwright_start : World -> result unit * World;
  playwright_stop : World -> result unit * World;
  chromium_launch : World -> result unit * World;
  browser_new_context : World -> result unit * World;
  context_new_page : World -> result unit * World;
  browser_close : World -> result unit * World;
  page_goto : pystr -> World -> result unit * World;
  page_wait_for_selector :
    pystr -> selector_state -> N -> World -> result (option Elem) * World;
  page_wait_for_timeout : N -> World -> result unit * World;
  page_locator_count : pystr -> World -> result nat * World;
  page_click : pystr -> World -> result unit * World;
  keyboard_press : pystr -> World -> result unit * World;
  page_url : World -> pystr;
  page_query_tables : World -> result (list Table) * World;
  elem_is_checked : Elem -> World -> result bool * World;
  elem_click : Elem -> World -> result unit * World;
  file_open : pystr -> World -> result unit * World;
  file_write : pystr -> pystr -> World -> result unit * World;
  file_close : pystr -> World -> result unit * World;
  csv_writeheader : pystr -> list pystr -> World -> result unit * World;
  csv_writerows : pystr -> list BrandRecord -> World -> result unit * World }.

Section Workflow.

Context {World Elem : Type} {B : Browser World Elem}.

(** The operations a run invokes, in the order it invokes them. *)
Inductive call : Type :=
| CStart
| CStop
| CLaunch
| CNewContext
| CNewPage
| CClose
| CGoto (url : pystr)
| CWaitForSelector (selector : pystr) (state : selector_state) (timeout : N)
| CWaitForTimeout (ms : N)
| CLocatorCount (selector : pystr)
| CClick (selector : pystr)
| CPress (key : pystr)
| CQueryTables
| CIsChecked (e : Elem)
| CElemClick (e : Elem)
| COpen (path : pystr)
| CWrite (path : pystr) (text : pystr)
| CFileClose (path : pystr)
| CCsvHeader (path : pystr) (fieldnames : list pystr)
| CCsvRows (path : pystr) (rows : list BrandRecord).

Record state : Type := mkState {
  world : World;
  calls : list call }.

(** State and exceptions; the [print] calls of the script are left out. *)
Definition M (A : Type) : Type := state -> result A * state.

Definition ret {A} (a : A) : M A := fun st => (Ok a, st).

Definition raise {A} (e : exn) : M A := fun st => (Err e, st).

Definition bind {A C} (m : M A) (k : A -> M C) : M C :=
  fun st =>
    match m st with
    | (Ok a, st') => k a st'
    | (Err e, st') => (Err e, st')
    end.

(** [try: m  except Exception as e: handler e] *)
Definition try_catch {A} (m : M A) (handler : exn -> M A) : M A :=
  fun st =>
    match m st with
    | (Ok a, st') => (Ok a, st')
    | (Err e, st') => handler e st'
    end.

(** [try: m  finally: cleanup]: an exception of the cleanup replaces the
    outcome of [m]. *)
Definition try_finally {A} (m : M A) (cleanup : M unit) : M A :=
  fun st =>
    match m st with
    | (r, st') =>
        match cleanup st' with
        | (Ok _, st'') => (r, st'')
        | (Err e, st'') => (Err e, st'')
        end
    end.

Definition lift {A} (r : result A) : M A := fun st => (r, st).

(** Invoke one operation of the interface and record the call. *)
Definition invoke {A} (c : call) (op : World -> result A * World) : M A :=
  fun st =>
    let (r, w) := op (world st) in
    (r, {| world := w; calls := calls st ++ [c] |}).

(** Read [page.url]. *)
Definition get_url : M pystr := fun st => (Ok (page_url (world st)), st).

End Workflow.

Notation "x <- m ;; k" := (bind m (fun x => k))
  (at level 61, m at next level, right associativity).
Notation "m ;; k" := (bind m (fun _ => k))
  (at level 61, right associativity).

Section Steps.

Context {World Elem : Type} {B : Browser World Elem}.

#[local] Abbreviation M := (@M World Elem).

Definition wait_for_selector (selector : pystr) (st : selector_state) (timeout : N)
  : M (option Elem) :=
  invoke (CWaitForSelector selector st timeout)
         (page_wait_for_selector selector st timeout).

Definition wait_for_timeout (ms : N) : M unit :=
  invoke (CWaitForTimeout ms) (page_wait_for_timeout ms).

(** *** select_brand_document_type (lines 28-56) *)
Definition select_brand_document_type : M unit :=
  try_catch
    (brand_checkbox <- wait_for_selector BRAND_CHECKBOX_ID StateDefault CHECKBOX_TIMEOUT ;;
     match brand_checkbox with
     | None => raise (RuntimeError (py "BRAND checkbox not found"))
     | Some checkbox =>
         checked <- invoke (CIsChecked checkbox) (elem_is_checked checkbox) ;;
         if (checked : bool) then ret tt
         else
           invoke (CElemClick checkbox) (elem_click checkbox) ;;
           wait_for_timeout 2000 ;;
           invoke (CIsChecked checkbox) (elem_is_checked checkbox) ;;
           ret tt
     end)
    (fun e => raise e).

(** *** click_search_button (lines 59-84) *)

(** The loop of lines 72-76: [true] when a selector matched and was clicked. *)
Fixpoint try_selectors (selectors : list pystr) : M bool :=
  match selectors with
  | [] => ret false
  | selector :: rest =>
      n <- invoke (CLocatorCount selector) (page_locator_count selector) ;;
      if 0 <? n then
        invoke (CClick selector) (page_click selector) ;;
        ret true
      else try_selectors rest
  end.

Definition click_search_button : M unit :=
  try_catch
    (clicked <- try_selectors search_selectors ;;
     if (clicked : bool) then ret tt
     else invoke (CPress (py "Enter")) (keyboard_press (py "Enter")))
    (fun e => raise e).

(** *** wait_for_search_results (lines 87-118) *)

(** The body of the [try] (lines 93-113). *)
Definition wait_for_search_results_body : M bool :=
  wait_for_selector searching_text StateDefault 5000 ;;
  wait_for_selector searching_text StateHidden SEARCH_MODAL_TIMEOUT ;;
  wait_for_timeout 3000 ;;
  current_url <- get_url ;;
  if contains results_page current_url then ret true
  else
    wait_for_timeout 5000 ;;
    current_url <- get_url ;;
    if contains results_page current_url then ret true
    else ret false.

Definition wait_for_search_results : M bool :=
  try_catch wait_for_search_results_body
    (fun _ => url <- get_url ;; ret (contains results_page url)).

(** *** scrape_results_table (lines 148-217) *)
Definition scrape_results_table : M (list BrandRecord) :=
  try_catch
    (wait_for_selector (py "table") StateDefault TABLE_WAIT_TIMEOUT ;;
     tables <- invoke CQueryTables page_query_tables ;;
     lift (extract_records tables))
    (fun _ => ret []).

(** *** save_results (lines 220-246) *)

(** [with open(path, 'w', ...) as f: body]: the file is closed when the body
    ends, also when it raises. *)
Definition with_open {A} (path : pystr) (body : M A) : M A :=
  invoke (COpen path) (file_open path) ;;
  try_finally body (invoke (CFileClose path) (file_close path)).

(** Lines 242-243 *)
Fixpoint write_lines (path : pystr) (data : list BrandRecord) : M unit :=
  match data with
  | [] => ret tt
  | record :: rest =>
      invoke (CWrite path (jsonl_line record)) (file_write path (jsonl_line record)) ;;
      write_lines path rest
  end.

Definition save_csv (data : list BrandRecord) : M unit :=
  with_open OUTPUT_CSV
    (invoke (CCsvHeader OUTPUT_CSV record_keys)
                 (csv_writeheader OUTPUT_CSV record_keys) ;;
     invoke (CCsvRows OUTPUT_CSV data) (csv_writerows OUTPUT_CSV data)).

Definition save_jsonl (data : list BrandRecord) : M unit :=
  with_open OUTPUT_JSONL (write_lines OUTPUT_JSONL data).

Definition save_results (data : list BrandRecord) : M unit :=
  match data with
  | [] => ret tt
  | _ :: _ =>
      try_catch (save_csv data) (fun _ => ret tt) ;;
      try_catch (save_jsonl data) (fun _ => ret tt)
  end.

(** *** main (lines 249-286) *)

(** Lines 258-284: the six steps, with the handler that re-raises. *)
Definition run_steps : M unit :=
  try_catch
    (invoke (CGoto SEARCH_ENTRY_URL) (page_goto SEARCH_ENTRY_URL) ;;
     select_brand_document_type ;;
     click_search_button ;;
     wait_for_search_results ;;
     data <- scrape_results_table ;;
     save_results data)
    (fun e => raise e).

Definition main : M unit :=
  invoke CStart playwright_start ;;
  try_finally
    (invoke CLaunch chromium_launch ;;
     invoke CNewContext browser_new_context ;;
     invoke CNewPage context_new_page ;;
     try_finally run_steps (invoke CClose browser_close))
    (invoke CStop playwright_stop).

End Steps.

(** ** A scripted browser

    A concrete instance of the interface for running the workflow on given
    answers.  The world is the number of operations performed so far; the
    answers are fixed by a scenario. *)

Record scenario : Type := mkScenario {
  sc_checkbox : result (option unit);
  sc_is_checked : result bool;
  sc_locator_count : nat;
  sc_searching : result (option unit);
  sc_url : pystr;
  sc_table_wait : result (option unit);
  sc_tables : result (list Table);
  sc_csv_rows : result unit;
  sc_write : result unit }.

Definition tick {A} (r : result A) (w : nat) : result A * nat := (r, S w).

Definition scripted (sc : scenario) : Browser nat unit := {|
  playwright_start := tick (Ok tt);
  playwright_stop := tick (Ok tt);
  chromium_launch := tick (Ok tt);
  browser_new_context := tick (Ok tt);
  context_new_page := tick (Ok tt);
  browser_close := tick (Ok tt);
  page_goto := fun _ => tick (Ok tt);
  page_wait_for_selector := fun selector _ _ =>
    tick (if str_eqb selector BRAND_CHECKBOX_ID then sc_checkbox sc
          else if str_eqb selector (py "table") then sc_table_wait sc
          else sc_searching sc);
  page_wait_for_timeout := fun _ => tick (Ok tt);
  page_locator_count := fun _ => tick (Ok (sc_locator_count sc));
  page_click := fun _ => tick (Ok tt);
  keyboard_press := fun _ => tick (Ok tt);
  page_url := fun _ => sc_url sc;
  page_query_tables := tick (sc_tables sc);
  elem_is_checked := fun _ => tick (sc_is_checked sc);
  elem_click := fun _ => tick (Ok tt);
  file_open := fun _ => tick (Ok tt);
  file_write := fun _ _ => tick (sc_write sc);
  file_close := fun _ => tick (Ok tt);
  csv_writeheader := fun _ _ => tick (Ok tt);
  csv_writerows := fun _ _ => tick (sc_csv_rows sc) |}.

Definition initial_state : @state nat unit := {| world := 0; calls := [] |}.

Definition td (text : string) : Cell :=
  {| cell_tag := TD; cell_inner_text := Ok (py text) |}.
Definition th (text : string) : Cell :=
  {| cell_tag := TH; cell_inner_text := Ok (py text) |}.
Definition unreadable_td : Cell :=
  {| cell_tag := TD; cell_inner_text := Err (PwError (py "detached")) |}.

Definition row_of (cells : list Cell) (text : string) : Row :=
  {| row_inner_text := Ok (py text); row_cells := Ok cells |}.

(** A header and three data rows, the second data row having two cells. *)
Definition sample_rows : list Row :=
  [ row_of [th "Instrument"; th "Date"; th "Doc Type"] "Instrument Date Doc Type";
    row_of [td "2021-001"; td "01/02/2021"; td "BRAND"; td "DOE&nbsp;JOHN"]
           "2021-001 01/02/2021 BRAND DOE JOHN";
    row_of [td "&nbsp;"; td ""] "";
    row_of [td " 2021-002 "; td "01/03/2021"; td "BRAND"] "2021-002 01/03/2021 BRAND" ].

Definition sample_table : Table := {| table_rows := Ok sample_rows |}.

(** A layout table in front of the results table. *)
Definition layout_table : Table :=
  {| table_rows := Ok [row_of [td "Fort Bend County"] "Fort Bend County"] |}.

(** A table as wide as a results table whose sampled rows are blank. *)
Definition blank_table : Table :=
  {| table_rows :=
       Ok [ row_of [th "Instrument"; th "Date"; th "Doc Type"] "Instrument Date Doc Type";
            row_of [td "&nbsp;"; td "  "; td ""] "";
            row_of [td ""; td "&nbsp; "; td ""] "";
            row_of [td "2021-001"; td "01/02/2021"; td "BRAND"] "2021-001" ] |}.

(** A row with a cell that cannot be read, a row whose cell query raises and
    an intact row. *)
Definition damaged_rows : list Row :=
  [ row_of [td "2021-003"; unreadable_td; td "BRAND"] "2021-003 BRAND";
    {| row_inner_text := Ok []; row_cells := Err (PwError (py "detached")) |};
    row_of [td "2021-004"; td "01/05/2021"; td "BRAND"] "2021-004 01/05/2021 BRAND" ].

Definition sample_scenario : scenario :=
  {| sc_checkbox := Ok (Some tt);
     sc_is_checked := Ok true;
     sc_locator_count := 1;
     sc_searching := Ok (Some tt);
     sc_url := SEARCH_RESULTS_URL;
     sc_table_wait := Ok (Some tt);
     sc_tables := Ok [layout_table; sample_table];
     sc_csv_rows := Ok tt;
     sc_write := Ok tt |}.

(** The "searching" indicator never shows up, the results page is reached. *)
Definition indicator_timeout_scenario : scenario :=
  {| sc_checkbox := Ok (Some tt);
     sc_is_checked := Ok false;
     sc_locator_count := 0;
     sc_searching := Err PwTimeoutError;
     sc_url := SEARCH_RESULTS_URL;
     sc_table_wait := Ok (Some tt);
     sc_tables := Ok [layout_table; sample_table];
     sc_csv_rows := Ok tt;
     sc_write := Ok tt |}.

(** Writing the CSV rows fails. *)
Definition csv_failure_scenario : scenario :=
  {| sc_checkbox := Ok (Some tt);
     sc_is_checked := Ok true;
     sc_locator_count := 1;
     sc_searching := Ok (Some tt);
     sc_url := SEARCH_RESULTS_URL;
     sc_table_wait := Ok (Some tt);
     sc_tables := Ok [layout_table; sample_table];
     sc_csv_rows := Err (OSError (py "No space left on device"));
     sc_write := Ok tt |}.

(** No table ever shows up on the page. *)
Definition no_table_scenario : scenario :=
  {| sc_checkbox := Ok (Some tt);
     sc_is_checked := Ok true;
     sc_locator_count := 1;
     sc_searching := Ok (Some tt);
     sc_url := SEARCH_ENTRY_URL;
     sc_table_wait := Err PwTimeoutError;
     sc_tables := Ok [];
     sc_csv_rows := Ok tt;
     sc_write := Ok tt |}.

(** The BRAND checkbox never shows up. *)
Definition no_checkbox_scenario : scenario :=
  {| sc_checkbox := Err PwTimeoutError;
     sc_is_checked := Ok false;
     sc_locator_count := 1;
     sc_searching := Ok (Some tt);
     sc_url := SEARCH_ENTRY_URL;
     sc_table_wait := Ok (Some tt);
     sc_tables := Ok [];
     sc_csv_rows := Ok tt;
     sc_write := Ok tt |}.

Definition sample_records : list BrandRecord :=
  [ make_record 1 [py "2021-001"; py "01/02/2021"; py "BRAND"; py "DOE JOHN"];
    make_record 3 [py "2021-002"; py "01/03/2021"; py "BRAND"] ].

(** A record with a lone high surrogate followed by a lone low surrogate. *)
Definition surrogate_record : BrandRecord :=
  make_record 1 [[55296; 56320]%N; py "01/02/2021"; py "BRAND"].

(** The same record with the two surrogates joined into U+10000. *)
Definition joined_record : BrandRecord :=
  make_record 1 [[65536]%N; py "01/02/2021"; py "BRAND"].

(** ** File operations among the calls *)

Section FileCalls.

Context {World Elem : Type} {B : Browser World Elem}.

(** The calls that act on an output file. *)
Definition is_file_call (c : @call Elem) : bool :=
  match c with
  | COpen _ | CWrite _ _ | CFileClose _ | CCsvHeader _ _ | CCsvRows _ _ => true
  | _ => false
  end.

(** A computation that, whatever it returns, invokes no file operation. *)
Definition leaves_files_alone {A} (m : @M World Elem A) : Prop :=
  forall st, exists r st' l,
    m st = (r, st') /\ calls st' = calls st ++ l
    /\ Forall (fun c => is_file_call c = false) l.

End FileCalls.

(** ** More sample data *)

(** The checkbox never attaches and the wait answers nothing. *)
Definition missing_checkbox_scenario : scenario :=
  {| sc_checkbox := Ok None;
     sc_is_checked := Ok false;
     sc_locator_count := 1;
     sc_searching := Ok (Some tt);
     sc_url := SEARCH_ENTRY_URL;
     sc_table_wait := Ok (Some tt);
     sc_tables := Ok [];
     sc_csv_rows := Ok tt;
     sc_write := Ok tt |}.

(** A results table whose first sampled cell cannot be read. *)
Definition unreadable_sample_table : Table :=
  {| table_rows :=
       Ok [ row_of [th "Instrument"; th "Date"; th "Doc Type"] "Instrument Date Doc Type";
            row_of [unreadable_td; td "01/02/2021"; td "BRAND"] "01/02/2021 BRAND";
            row_of [td "2021-002"; td "01/03/2021"; td "BRAND"] "2021-002 01/03/2021 BRAND" ] |}.

(** A results table whose first row answers its cells but not its text. *)
Definition unreadable_header_table : Table :=
  {| table_rows :=
       Ok [ {| row_inner_text := Err (PwError (py "detached"));
               row_cells := Ok [th "Instrument"; th "Date"; th "Doc Type"] |};
            row_of [td "2021-001"; td "01/02/2021"; td "BRAND"] "2021-001 01/02/2021 BRAND";
            row_of [td "2021-002"; td "01/03/2021"; td "BRAND"] "2021-002 01/03/2021 BRAND" ] |}.

Definition unreadable_header_scenario : scenario :=
  {| sc_checkbox := Ok (Some tt);
     sc_is_checked := Ok true;
     sc_locator_count := 1;
     sc_searching := Ok (Some tt);
     sc_url := SEARCH_RESULTS_URL;
     sc_table_wait := Ok (Some tt);
     sc_tables := Ok [unreadable_header_table];
     sc_csv_rows := Ok tt;
     sc_write := Ok tt |}.

(** The state of the scripted browser once the page is created. *)
Definition page_created_state : @state nat unit :=
  {| world := 4; calls := [CStart; CLaunch; CNewContext; CNewPage] |}.

(** * Properties *)

Unset Implicit Arguments.

(** ** Strings *)

Lemma str_eqb_eq (a b : pystr) : str_eqb a b = true <-> a = b.
Proof.
  revert b; induction a as [|x a IH]; intros [|y b]; simpl; split;
    try discriminate; try reflexivity.
  - intros H. apply andb_true_iff in H as [Hx Hr].
    apply N.eqb_eq in Hx. apply IH in Hr. now subst.
  - intros H. injection H as -> ->. rewrite N.eqb_refl. simpl. now apply IH.
Qed.

Lemma nonempty_false (s : pystr) : nonempty s = false <-> s = [].
Proof. destruct s; simpl; split; congruence. Qed.

(** Line 139 lets a cell through exactly when its trimmed text is neither
    empty nor the placeholder. *)
Lemma meaningful_false (text : pystr) :
  meaningful text = false <-> strip text = [] \/ strip text = nbsp.
Proof.
  unfold meaningful. rewrite andb_false_iff, negb_false_iff.
  now rewrite nonempty_false, str_eqb_eq.
Qed.

(** What is left of a string after [lstrip] does not start with white space. *)
Lemma lstrip_head (s : pystr) (c : N) (t : pystr) :
  lstrip s = c :: t -> py_isspace c = false.
Proof.
  induction s as [|x s IH]; simpl; [discriminate|].
  destruct (py_isspace x) eqn:Hx; [exact IH|].
  intros H. injection H as <- _. exact Hx.
Qed.

Lemma lstrip_app_kept (l : pystr) (c : N) :
  py_isspace c = false -> lstrip (l ++ [c]) = lstrip l ++ [c].
Proof.
  intros Hc. induction l as [|x l IH]; simpl.
  - now rewrite Hc.
  - destruct (py_isspace x); [exact IH|reflexivity].
Qed.

(** [strip] trims both ends: the result neither starts nor ends with white
    space. *)
Lemma strip_trims (s : pystr) :
  match strip s with c :: _ => py_isspace c = false | [] => True end
  /\ match rev (strip s) with c :: _ => py_isspace c = false | [] => True end.
Proof.
  unfold strip, rstrip. split.
  - destruct (lstrip s) as [|c t] eqn:Hs; [exact I|].
    pose proof (lstrip_head s c t Hs) as Hc.
    simpl rev at 2. rewrite (lstrip_app_kept (rev t) c Hc), rev_app_distr.
    simpl. exact Hc.
  - rewrite rev_involutive.
    destruct (lstrip (rev (lstrip s))) as [|c t] eqn:Hr; [exact I|].
    exact (lstrip_head _ c t Hr).
Qed.

Example strip_replace_example :
  strip (replace nbsp space (py "  DOE&nbsp;&nbsp;JOHN &nbsp; ")) = py "DOE  JOHN".
Proof. reflexivity. Qed.

Example strip_no_break_space_example :
  strip [160; 65; 9; 66; 12288; 10]%N = [65; 9; 66]%N.
Proof. reflexivity. Qed.

Example has_header_keyword_example :
  has_header_keyword (py "Instrument # Date Filed") = true
  /\ has_header_keyword (py "2021-001 BRAND") = false.
Proof. split; reflexivity. Qed.

(** ** Row-to-record mapping *)

Lemma parse_row_cases (i : nat) (row : Row) :
  (exists cells, query_td row = Ok cells /\ 3 <= length cells
                 /\ parse_row i row = [make_record i (map cell_text cells)])
  \/ ((forall cells, query_td row = Ok cells -> length cells < 3)
      /\ parse_row i row = []).
Proof.
  unfold parse_row. destruct (query_td row) as [cells|e] eqn:Hq.
  - destruct (3 <=? length cells) eqn:Hlen.
    + left. exists cells. apply Nat.leb_le in Hlen. auto.
    + right. apply Nat.leb_gt in Hlen. split; [|reflexivity].
      intros cells' Heq. injection Heq as <-. exact Hlen.
  - right. split; [|reflexivity]. intros cells' Heq. discriminate.
Qed.

(** Every record of the output comes from one row of the table, at or after
    the start row, with at least three [<td>] cells. *)
Lemma in_parse_rows (rows : list Row) (start : nat) (r : BrandRecord) :
  In r (parse_rows rows start) ->
  exists i row cells,
    start <= i /\ nth_error rows i = Some row /\ query_td row = Ok cells
    /\ 3 <= length cells /\ r = make_record i (map cell_text cells).
Proof.
  unfold parse_rows. intros Hin. apply in_flat_map in Hin as (i & Hi & Hr).
  apply in_seq in Hi. unfold parse_index in Hr.
  destruct (nth_error rows i) as [row|] eqn:Hrow; [|contradiction].
  destruct (parse_row_cases i row) as [(cells & Hq & Hlen & Heq)|[_ Heq]];
    rewrite Heq in Hr; simpl in Hr; [|contradiction].
  destruct Hr as [<-|[]]. exists i, row, cells. repeat split; auto; lia.
Qed.

Lemma parse_rows_split (rows : list Row) (start i : nat) :
  start <= i -> i < length rows ->
  parse_rows rows start =
    flat_map (parse_index rows) (seq start (i - start))
    ++ parse_index rows i
    ++ flat_map (parse_index rows) (seq (S i) (length rows - S i)).
Proof.
  intros Hs Hi. unfold parse_rows.
  replace (length rows - start) with ((i - start) + S (length rows - S i)) by lia.
  rewrite seq_app, flat_map_app. f_equal.
  replace (start + (i - start)) with i by lia. simpl. reflexivity.
Qed.

Lemma get_or_empty_nth_error (k : nat) (l : list pystr) (x : pystr) :
  nth_error l k = Some x -> get_or_empty k l = x.
Proof.
  intros H. unfold get_or_empty.
  assert (Hlt : k < length l) by (apply nth_error_Some; congruence).
  apply Nat.ltb_lt in Hlt. rewrite Hlt. now apply nth_error_nth.
Qed.

Lemma get_or_empty_beyond (k : nat) (l : list pystr) :
  length l <= k -> get_or_empty k l = [].
Proof.
  intros H. unfold get_or_empty. apply Nat.ltb_ge in H. now rewrite H.
Qed.

Lemma named_field_make_record (i k : nat) (texts : list pystr) :
  k < 6 -> named_field k (make_record i texts) = Some (get_or_empty k texts).
Proof.
  intros Hk. do 6 (destruct k as [|k]; [reflexivity|]). lia.
Qed.

(** C1.  A row with exactly N [<td>] cells, N >= 3, yields one record: its
    [raw_data] has length N; the named field of every index below min(N, 6)
    holds that cell's text with the placeholder replaced by a space and then
    trimmed (the empty string when the cell cannot be read); the named fields
    of the indices from N on are empty. *)
Theorem row_mapping_is_positional :
  forall (i : nat) (row : Row) (cells : list Cell),
    query_td row = Ok cells ->
    3 <= length cells ->
    exists r,
      parse_row i row = [r]
      /\ row_number r = i + 1
      /\ length (raw_data r) = length cells
      /\ (forall k c, k < Nat.min (length cells) 6 -> nth_error cells k = Some c ->
            nth_error (raw_data r) k = named_field k r
            /\ (forall text, cell_inner_text c = Ok text ->
                  named_field k r = Some (strip (replace nbsp space text)))
            /\ (forall e, cell_inner_text c = Err e -> named_field k r = Some []))
      /\ (forall k, length cells <= k -> k < 6 -> named_field k r = Some []).
Proof.
  intros i row cells Hq Hlen.
  exists (make_record i (map cell_text cells)). repeat split.
  - unfold parse_row. rewrite Hq. apply Nat.leb_le in Hlen. now rewrite Hlen.
  - simpl. apply length_map.
  - rewrite named_field_make_record by lia. simpl raw_data.
    assert (Hn : nth_error (map cell_text cells) k = Some (cell_text c))
      by (now apply map_nth_error).
    rewrite Hn. f_equal. symmetry. now apply get_or_empty_nth_error.
  - intros text Htext. rewrite named_field_make_record by lia. f_equal.
    rewrite (get_or_empty_nth_error k (map cell_text cells) (cell_text c))
      by (now apply map_nth_error).
    unfold cell_text. now rewrite Htext.
  - intros e He. rewrite named_field_make_record by lia. f_equal.
    rewrite (get_or_empty_nth_error k (map cell_text cells) (cell_text c))
      by (now apply map_nth_error).
    unfold cell_text. now rewrite He.
  - intros k Hk Hk6. rewrite named_field_make_record by lia. f_equal.
    apply get_or_empty_beyond. now rewrite length_map.
Qed.

Lemma row_mapping_is_positional_witness :
  exists r,
    parse_row 1 (row_of [td "2021-001"; td "01/02/2021"; td "BRAND"; td "DOE&nbsp;JOHN"]
                        "2021-001 01/02/2021 BRAND DOE JOHN") = [r]
    /\ row_number r = 2
    /\ length (raw_data r) = 4
    /\ grantor r = py "DOE JOHN"
    /\ grantee r = [].
Proof.
  destruct (@row_mapping_is_positional 1
              (row_of [td "2021-001"; td "01/02/2021"; td "BRAND"; td "DOE&nbsp;JOHN"]
                      "2021-001 01/02/2021 BRAND DOE JOHN")
              [td "2021-001"; td "01/02/2021"; td "BRAND"; td "DOE&nbsp;JOHN"]
              eq_refl (le_S _ _ (le_n 3)))
    as (r & Hrow & Hnum & Hlen & Hfields & Hrest).
  exists r. split; [exact Hrow|]. split; [exact Hnum|]. split; [exact Hlen|].
  split.
  - destruct (Hfields 3 (td "DOE&nbsp;JOHN")) as (_ & Htext & _);
      [simpl; lia | reflexivity |].
    specialize (Htext (py "DOE&nbsp;JOHN") eq_refl). simpl in Htext.
    now injection Htext.
  - assert (H4 : named_field 4 r = Some []) by (apply Hrest; simpl; lia).
    simpl in H4. now injection H4.
Defined.

(** ** Table discovery *)

Lemma scan_cells_true (cells : list Cell) :
  scan_cells cells = Ok true ->
  exists c text,
    In c cells /\ cell_inner_text c = Ok text /\ meaningful text = true.
Proof.
  induction cells as [|c cells IH]; simpl; [discriminate|].
  destruct (cell_inner_text c) as [text|e] eqn:Htext; simpl; [|discriminate].
  destruct (meaningful text) eqn:Hm.
  - intros _. exists c, text. auto.
  - intros H. destruct (IH H) as (c' & text' & Hin & Ht & Hm').
    exists c', text'. auto.
Qed.

Lemma scan_rows_true (rows : list Row) :
  scan_rows rows = Ok true ->
  exists row cells c text,
    In row rows /\ query_td row = Ok cells /\ In c cells
    /\ cell_inner_text c = Ok text /\ meaningful text = true.
Proof.
  induction rows as [|row rows IH]; simpl; [discriminate|].
  destruct (query_td row) as [cells|e] eqn:Hq; simpl; [|discriminate].
  destruct (scan_cells cells) as [[|]|e] eqn:Hscan; simpl; try discriminate.
  - intros _. destruct (scan_cells_true _ Hscan) as (c & text & Hin & Ht & Hm).
    exists row, cells, c, text. auto.
  - intros H. destruct (IH H) as (row' & cells' & c & text & Hin & Hrest).
    exists row', cells', c, text. auto.
Qed.

(** What line 140 returns, and when. *)
Lemma check_table_accepts (t : Table) (nr nc : nat) :
  check_table t = Ok (Some (nr, nc)) ->
  exists rows row0 cells,
    table_rows t = Ok rows /\ 1 < length rows /\ nr = length rows
    /\ nth_error rows 0 = Some row0 /\ query_td_th row0 = Ok cells
    /\ 3 <= length cells /\ nc = length cells
    /\ scan_rows (sampled_rows rows) = Ok true.
Proof.
  unfold check_table. destruct (table_rows t) as [rows|e]; simpl; [|discriminate].
  destruct (length rows <=? 1) eqn:Hlen; [discriminate|].
  apply Nat.leb_gt in Hlen.
  destruct rows as [|row0 rest]; [discriminate|].
  destruct (query_td_th row0) as [cells|e] eqn:Hcells; simpl; [|discriminate].
  destruct (length cells <? 3) eqn:Hw; [discriminate|].
  apply Nat.ltb_ge in Hw.
  destruct (scan_rows (sampled_rows (row0 :: rest))) as [[|]|e] eqn:Hscan;
    simpl; try discriminate.
  intros H. injection H as <- <-.
  exists (row0 :: rest), row0, cells. repeat split; auto.
Qed.

Lemma find_from_selects (tables : list Table) :
  forall start t i nr nc,
    find_from start tables = Some (t, i, nr, nc) ->
    start <= i /\ nth_error tables (i - start) = Some t
    /\ check_table t = Ok (Some (nr, nc)).
Proof.
  induction tables as [|table rest IH]; intros start t i nr nc; simpl;
    [discriminate|].
  destruct (check_table table) as [[[nr' nc']|]|e] eqn:Hc.
  - intros H. injection H as <- <- <- <-.
    rewrite Nat.sub_diag. simpl. auto.
  - intros H. apply IH in H as (Hle & Hnth & Hchk).
    split; [lia|]. split; [|exact Hchk].
    replace (i - start) with (S (i - S start)) by lia. exact Hnth.
  - intros H. apply IH in H as (Hle & Hnth & Hchk).
    split; [lia|]. split; [|exact Hchk].
    replace (i - start) with (S (i - S start)) by lia. exact Hnth.
Qed.

(** C2.  A table with at most one row, or whose first row has fewer than three
    cells, or whose sampled rows (the first two after the first row) hold no
    [<td>] cell with a trimmed text that is neither empty nor the placeholder,
    is never the table that discovery selects. *)
Theorem discovery_rejects_table :
  forall (tables : list Table) (i : nat) (t : Table) (rows : list Row),
    nth_error tables i = Some t ->
    table_rows t = Ok rows ->
    (length rows <= 1
     \/ (exists row0 cells,
           nth_error rows 0 = Some row0 /\ query_td_th row0 = Ok cells
           /\ length cells < 3)
     \/ (forall row cells c text,
           In row (sampled_rows rows) -> query_td row = Ok cells -> In c cells ->
           cell_inner_text c = Ok text ->
           strip text = [] \/ strip text = nbsp)) ->
    forall t' nr nc, find_results_table tables <> Some (t', i, nr, nc).
Proof.
  intros tables i t rows Hnth Hrows Hrej t' nr nc Hfind.
  apply find_from_selects in Hfind as (_ & Hnth' & Hchk).
  rewrite Nat.sub_0_r, Hnth in Hnth'. injection Hnth' as <-.
  apply check_table_accepts in Hchk
    as (rows' & row0 & cells & Hrows' & Hlen & _ & Hrow0 & Hcells & Hw & _ & Hscan).
  rewrite Hrows in Hrows'. injection Hrows' as <-.
  destruct Hrej as [Hle|[(row0' & cells' & Hrow0' & Hcells' & Hlt)|Hnone]].
  - lia.
  - rewrite Hrow0 in Hrow0'. injection Hrow0' as <-.
    rewrite Hcells in Hcells'. injection Hcells' as <-. lia.
  - apply scan_rows_true in Hscan as (row & cs & c & text & Hin & Hq & Hc & Ht & Hm).
    assert (Hf : meaningful text = false)
      by (apply meaningful_false; eapply Hnone; eauto).
    congruence.
Qed.

Lemma discovery_rejects_table_witness :
  find_results_table [layout_table; blank_table; sample_table]
  <> Some (blank_table, 1, 4, 3).
Proof.
  refine (@discovery_rejects_table [layout_table; blank_table; sample_table] 1
            blank_table _ eq_refl eq_refl _ blank_table 4 3).
  right. right. intros row cells c text Hrow Hq Hc Ht.
  simpl in Hrow.
  destruct Hrow as [<-|[<-|[]]]; injection Hq as <-; simpl in Hc;
    destruct Hc as [<-|[<-|[<-|[]]]]; injection Ht as <-;
    vm_compute; auto.
Defined.

(** ** Rows that yield no record *)

(** A row whose [<td>] query answers fewer than three cells, or raises, has no
    record in the output. *)
Lemma short_row_has_no_record (rows : list Row) (start i : nat) (row : Row) :
  nth_error rows i = Some row ->
  (forall cells, query_td row = Ok cells -> length cells < 3) ->
  forall r, In r (parse_rows rows start) -> row_number r <> i + 1.
Proof.
  intros Hrow Hshort r Hin Hnum.
  apply in_parse_rows in Hin as (j & row' & cells & _ & Hrow' & Hq & Hlen & ->).
  simpl in Hnum. assert (j = i) by lia. subst j.
  rewrite Hrow in Hrow'. injection Hrow' as <-.
  specialize (Hshort cells Hq). lia.
Qed.

Lemma parse_index_failed_row (rows : list Row) (i : nat) (row : Row) (e : exn) :
  nth_error rows i = Some row -> row_cells row = Err e -> parse_index rows i = [].
Proof.
  intros Hrow He. unfold parse_index, parse_row, query_td.
  now rewrite Hrow, He.
Qed.

(** C4, as the code has it.  A row whose cell query raises is skipped, and the
    output is made of what the rows before it and the rows after it yield on
    their own.  A cell whose text cannot be read does not skip its row: the
    record is emitted with the empty string at that cell's position. *)
Theorem row_failure_skips_only_that_row :
  forall (rows : list Row) (start i : nat) (row : Row),
    start <= i ->
    nth_error rows i = Some row ->
    (forall e, row_cells row = Err e ->
       parse_rows rows start =
         flat_map (parse_index rows) (seq start (i - start))
         ++ flat_map (parse_index rows) (seq (S i) (length rows - S i))
       /\ forall r, In r (parse_rows rows start) -> row_number r <> i + 1)
    /\ (forall cells, query_td row = Ok cells -> 3 <= length cells ->
          exists r,
            In r (parse_rows rows start) /\ row_number r = i + 1
            /\ length (raw_data r) = length cells
            /\ forall k c e, nth_error cells k = Some c ->
                 cell_inner_text c = Err e -> nth_error (raw_data r) k = Some []).
Proof.
  intros rows start i row Hs Hrow.
  assert (Hi : i < length rows) by (apply nth_error_Some; congruence).
  split.
  - intros e He. split.
    + rewrite (parse_rows_split rows start i Hs Hi).
      now rewrite (parse_index_failed_row rows i row e Hrow He).
    + apply (short_row_has_no_record rows start i row Hrow).
      intros cells Hq. unfold query_td in Hq. rewrite He in Hq. discriminate.
  - intros cells Hq Hlen. exists (make_record i (map cell_text cells)).
    repeat split.
    + rewrite (parse_rows_split rows start i Hs Hi). apply in_or_app. right.
      apply in_or_app. left. unfold parse_index, parse_row.
      rewrite Hrow, Hq. apply Nat.leb_le in Hlen. rewrite Hlen. now left.
    + simpl. apply length_map.
    + intros k c e Hc He. simpl.
      rewrite (map_nth_error cell_text k cells Hc). unfold cell_text.
      now rewrite He.
Qed.

(** C10.  A row whose cells are all [<th>] has no record in the output,
    whatever the start row is, because the mapping queries [<td>] cells only;
    the width that discovery reports is the number of all cells ([<td>] and
    [<th>]) of the first row. *)
Theorem th_only_row_is_excluded :
  (forall (rows : list Row) (start i : nat) (row : Row) (cells : list Cell),
     nth_error rows i = Some row ->
     row_cells row = Ok cells ->
     (forall c, In c cells -> cell_tag c = TH) ->
     forall r, In r (parse_rows rows start) -> row_number r <> i + 1)
  /\ (forall (t : Table) (nr nc : nat),
        check_table t = Ok (Some (nr, nc)) ->
        exists rows row0 cells,
          table_rows t = Ok rows /\ nth_error rows 0 = Some row0
          /\ row_cells row0 = Ok cells
          /\ nc = length (filter is_td cells)
                  + length (filter (fun c => negb (is_td c)) cells)).
Proof.
  split.
  - intros rows start i row cells Hrow Hcells Hth.
    apply (short_row_has_no_record rows start i row Hrow).
    intros tds Hq. unfold query_td in Hq. rewrite Hcells in Hq.
    injection Hq as <-.
    assert (Hnil : filter is_td cells = []).
    { clear Hcells. induction cells as [|c cells IH]; [reflexivity|].
      simpl. unfold is_td at 1. rewrite (Hth c (or_introl eq_refl)).
      apply IH. intros c' Hc'. apply Hth. now right. }
    rewrite Hnil. simpl. lia.
  - intros t nr nc Hchk.
    apply check_table_accepts in Hchk
      as (rows & row0 & cells & Hrows & _ & _ & Hrow0 & Hcells & _ & -> & _).
    exists rows, row0, cells. repeat split; auto.
    symmetry. apply filter_length.
Qed.

Lemma row_failure_skips_only_that_row_witness :
  (parse_rows damaged_rows 0 =
     flat_map (parse_index damaged_rows) (seq 0 1)
     ++ flat_map (parse_index damaged_rows) (seq 2 1))
  /\ (exists r,
        In r (parse_rows damaged_rows 0) /\ row_number r = 1
        /\ nth_error (raw_data r) 1 = Some []).
Proof.
  split.
  - destruct (row_failure_skips_only_that_row damaged_rows 0 1 _ (le_S _ _ (le_n 0)) eq_refl)
      as [Hskip _].
    exact (proj1 (Hskip _ eq_refl)).
  - destruct (row_failure_skips_only_that_row damaged_rows 0 0 _ (le_n 0) eq_refl)
      as [_ Hkeep].
    destruct (Hkeep _ eq_refl (le_n 3)) as (r & Hin & Hnum & _ & Hempty).
    exists r. split; [exact Hin|]. split; [exact Hnum|].
    exact (Hempty 1 unreadable_td _ eq_refl eq_refl).
Defined.

(** C4 as stated fails: a row with a cell whose text cannot be read is not
    skipped. *)
Lemma unreadable_cell_row_is_not_skipped :
  ~ (forall (rows : list Row) (start i : nat) (row : Row) (cells : list Cell)
            (c : Cell) (e : exn),
       start <= i -> nth_error rows i = Some row ->
       query_td row = Ok cells -> In c cells -> cell_inner_text c = Err e ->
       forall r, In r (parse_rows rows start) -> row_number r <> i + 1).
Proof.
  intros Hclaim.
  apply (Hclaim damaged_rows 0 0 _ _ unreadable_td _ (le_n 0) eq_refl eq_refl
           (or_intror (or_introl eq_refl)) eq_refl
           (make_record 0 [py "2021-003"; []; py "BRAND"])).
  - left. reflexivity.
  - reflexivity.
Qed.

Lemma th_only_row_is_excluded_witness :
  (forall r, In r (parse_rows sample_rows 0) -> row_number r <> 1)
  /\ exists rows row0 cells,
       table_rows sample_table = Ok rows /\ nth_error rows 0 = Some row0
       /\ row_cells row0 = Ok cells
       /\ 3 = length (filter is_td cells)
              + length (filter (fun c => negb (is_td c)) cells).
Proof.
  destruct th_only_row_is_excluded as [Hrow Hwidth]. split.
  - apply (Hrow sample_rows 0 0 _ _ eq_refl eq_refl).
    intros c Hc. simpl in Hc. destruct Hc as [<-|[<-|[<-|[]]]]; reflexivity.
  - apply (Hwidth sample_table 4 3). reflexivity.
Defined.

(** ** The workflow steps *)

Section WorkflowProperties.

Context {World Elem : Type} {B : Browser World Elem}.

#[local] Abbreviation state := (@state World Elem).

Lemma invoke_run {A} (c : call) (op : World -> result A * World) (st : state)
      (r : result A) (w : World) :
  op (world st) = (r, w) ->
  invoke c op st = (r, {| world := w; calls := calls st ++ [c] |}).
Proof. intros H. unfold invoke. now rewrite H. Qed.

(** An invoked operation is the next call recorded. *)
Lemma invoke_calls {A} (c : call) (op : World -> result A * World) (st : state) :
  exists r st', invoke c op st = (r, st') /\ calls st' = calls st ++ [c].
Proof.
  unfold invoke. destruct (op (world st)) as [r w]. eexists _, _.
  split; reflexivity.
Qed.

Ltac step_op :=
  match goal with
  | |- context [invoke ?c ?op ?st] =>
      let r := fresh "r" in
      let st' := fresh "st" in
      let Hrun := fresh "Hrun" in
      let Hcalls := fresh "Hcalls" in
      destruct (invoke_calls c op st) as (r & st' & Hrun & Hcalls);
      rewrite Hrun; destruct r; simpl
  end.

(** *** The results waiter *)

Lemma wait_for_search_results_returns (st : state) :
  exists b st', wait_for_search_results st = (Ok b, st').
Proof.
  unfold wait_for_search_results, wait_for_search_results_body, try_catch, bind,
    wait_for_selector, wait_for_timeout, get_url, ret.
  repeat (step_op; [|eexists _, _; reflexivity]).
  destruct (contains results_page (page_url (world st2))).
  - eexists _, _; reflexivity.
  - step_op; [|eexists _, _; reflexivity].
    destruct (contains results_page (page_url (world st3)));
      eexists _, _; reflexivity.
Qed.

(** C5.  The results waiter returns a Boolean from every state and never
    raises.  When one of its waits raises (the indicator never appears, never
    goes away, or the page fails during a fixed delay), the outcome is whether
    the URL of the page, read at that moment, contains the results-page path. *)
Theorem wait_for_search_results_never_raises :
  forall st : state,
    (exists b st', wait_for_search_results st = (Ok b, st'))
    /\ (forall e st1,
          wait_for_selector searching_text StateDefault 5000 st = (Err e, st1) ->
          wait_for_search_results st
          = (Ok (contains results_page (page_url (world st1))), st1))
    /\ (forall found st1 e st2,
          wait_for_selector searching_text StateDefault 5000 st = (Ok found, st1) ->
          wait_for_selector searching_text StateHidden SEARCH_MODAL_TIMEOUT st1
          = (Err e, st2) ->
          wait_for_search_results st
          = (Ok (contains results_page (page_url (world st2))), st2))
    /\ (forall found st1 gone st2 e st3,
          wait_for_selector searching_text StateDefault 5000 st = (Ok found, st1) ->
          wait_for_selector searching_text StateHidden SEARCH_MODAL_TIMEOUT st1
          = (Ok gone, st2) ->
          wait_for_timeout 3000 st2 = (Err e, st3) ->
          wait_for_search_results st
          = (Ok (contains results_page (page_url (world st3))), st3))
    /\ (forall found st1 gone st2 st3 e st4,
          wait_for_selector searching_text StateDefault 5000 st = (Ok found, st1) ->
          wait_for_selector searching_text StateHidden SEARCH_MODAL_TIMEOUT st1
          = (Ok gone, st2) ->
          wait_for_timeout 3000 st2 = (Ok tt, st3) ->
          contains results_page (page_url (world st3)) = false ->
          wait_for_timeout 5000 st3 = (Err e, st4) ->
          wait_for_search_results st
          = (Ok (contains results_page (page_url (world st4))), st4)).
Proof.
  intros st. split; [apply wait_for_search_results_returns|].
  unfold wait_for_search_results, wait_for_search_results_body, try_catch, bind,
    get_url, ret.
  repeat split.
  - intros e st1 H1. now rewrite H1.
  - intros found st1 e st2 H1 H2. now rewrite H1, H2.
  - intros found st1 gone st2 e st3 H1 H2 H3. now rewrite H1, H2, H3.
  - intros found st1 gone st2 st3 e st4 H1 H2 H3 Hurl H4.
    now rewrite H1, H2, H3, Hurl, H4.
Qed.

(** *** The filter selector *)

(** C8.  When the checkbox is found and already checked, the filter selector
    returns successfully having invoked two operations only, the wait for the
    checkbox and the read of its checked state: no click and no settle delay.
    The world it leaves is the one those two reads leave. *)
Theorem already_checked_is_a_no_op :
  forall (st : state) (checkbox : Elem) (w1 w2 : World),
    page_wait_for_selector BRAND_CHECKBOX_ID StateDefault CHECKBOX_TIMEOUT (world st)
    = (Ok (Some checkbox), w1) ->
    elem_is_checked checkbox w1 = (Ok true, w2) ->
    select_brand_document_type st
    = (Ok tt,
       {| world := w2;
          calls := calls st
                   ++ [ CWaitForSelector BRAND_CHECKBOX_ID StateDefault CHECKBOX_TIMEOUT;
                        CIsChecked checkbox ] |}).
Proof.
  intros st checkbox w1 w2 Hwait Hchecked.
  unfold select_brand_document_type, try_catch, bind, wait_for_selector.
  rewrite (invoke_run _ _ st _ _ Hwait).
  rewrite (invoke_run (CIsChecked checkbox) (elem_is_checked checkbox)
             {| world := w1; calls := _ |} _ _ Hchecked).
  simpl. now rewrite <- app_assoc.
Qed.

(** *** The table extractor *)

Lemma has_header_keyword_nonempty (text : pystr) :
  has_header_keyword text = true -> nonempty text = true.
Proof. destruct text; [discriminate|reflexivity]. Qed.

Lemma scrape_results_table_returns (st : state) :
  exists data st', scrape_results_table st = (Ok data, st').
Proof.
  unfold scrape_results_table, try_catch, bind, wait_for_selector, lift, ret.
  repeat (step_op; [|eexists _, _; reflexivity]).
  destruct (extract_records a0); eexists _, _; reflexivity.
Qed.

(** C3.  When the selected table has four rows, the first a detected header,
    the second data row with two [<td>] cells and the other two data rows with
    at least three, extraction returns exactly two records, numbered 2 and 4
    (positions in the table counted from 1, header included).  In general a
    row with fewer than three [<td>] cells has no record in the output. *)
Theorem short_rows_are_left_out :
  (forall (st : state) (found : option Elem) (w1 w2 : World)
          (tables : list Table) (t : Table) (i nr nc : nat)
          (r0 r1 r2 r3 : Row) (text : pystr) (c1 c2 c3 : list Cell),
     page_wait_for_selector (py "table") StateDefault TABLE_WAIT_TIMEOUT (world st)
     = (Ok found, w1) ->
     page_query_tables w1 = (Ok tables, w2) ->
     find_results_table tables = Some (t, i, nr, nc) ->
     table_rows t = Ok [r0; r1; r2; r3] ->
     row_inner_text r0 = Ok text ->
     has_header_keyword text = true ->
     query_td r1 = Ok c1 -> 3 <= length c1 ->
     query_td r2 = Ok c2 -> length c2 = 2 ->
     query_td r3 = Ok c3 -> 3 <= length c3 ->
     exists st' rec2 rec4,
       scrape_results_table st = (Ok [rec2; rec4], st')
       /\ row_number rec2 = 2 /\ row_number rec4 = 4
       /\ raw_data rec2 = map cell_text c1 /\ raw_data rec4 = map cell_text c3)
  /\ (forall (rows : list Row) (start i : nat) (row : Row) (cells : list Cell),
        nth_error rows i = Some row ->
        query_td row = Ok cells ->
        length cells < 3 ->
        forall r, In r (parse_rows rows start) -> row_number r <> i + 1).
Proof.
  split.
  - intros st found w1 w2 tables t i nr nc r0 r1 r2 r3 text c1 c2 c3
      Hwait Hquery Hfind Hrows Htext Hkey Hq1 Hl1 Hq2 Hl2 Hq3 Hl3.
    unfold scrape_results_table, try_catch, bind, wait_for_selector, lift.
    rewrite (invoke_run _ _ st _ _ Hwait).
    rewrite (invoke_run CQueryTables page_query_tables
               {| world := w1; calls := _ |} _ _ Hquery).
    unfold extract_records. rewrite Hfind, Hrows. simpl rbind.
    unfold detect_start_row. rewrite Htext. simpl rbind.
    rewrite (has_header_keyword_nonempty _ Hkey), Hkey. simpl rbind.
    unfold parse_rows. simpl. unfold parse_index. simpl.
    unfold parse_row. rewrite Hq1, Hq2, Hq3, Hl2.
    apply Nat.leb_le in Hl1, Hl3. rewrite Hl1, Hl3. simpl.
    eexists _, _, _. repeat split.
  - intros rows start i row cells Hrow Hq Hlen.
    apply (short_row_has_no_record rows start i row Hrow).
    intros cells' Hq'. rewrite Hq in Hq'. injection Hq' as <-. exact Hlen.
Qed.

(** *** The persister *)

Lemma write_lines_calls (path : pystr) (data : list BrandRecord) (st : state) :
  exists r st' l, write_lines path data st = (r, st') /\ calls st' = calls st ++ l.
Proof.
  revert st. induction data as [|record rest IH]; intros st; simpl.
  - exists (Ok tt), st, []. now rewrite app_nil_r.
  - unfold bind. step_op.
    + destruct (IH st0) as (r & st' & l & Hrun' & Hcalls').
      exists r, st', (CWrite path (jsonl_line record) :: l).
      rewrite Hrun', Hcalls', Hcalls, <- app_assoc. auto.
    + eexists _, _, _. split; [reflexivity|exact Hcalls].
Qed.

(** Opening a file is the first call of a [with open] block. *)
Lemma with_open_calls {A} (path : pystr) (body : M A) (st : state) :
  (forall s, exists r s' l, body s = (r, s') /\ calls s' = calls s ++ l) ->
  exists r st' l,
    with_open path body st = (r, st') /\ calls st' = calls st ++ COpen path :: l.
Proof.
  intros Hbody. unfold with_open, bind, try_finally. step_op.
  - destruct (Hbody st0) as (r & s' & l & Hrun' & Hcalls'). rewrite Hrun'.
    destruct (invoke_calls (CFileClose path) (file_close path) s')
      as (rc & sc & Hrunc & Hcallsc).
    rewrite Hrunc.
    assert (Hc : calls sc = calls st ++ COpen path :: l ++ [CFileClose path]).
    { rewrite Hcallsc, Hcalls', Hcalls, <- !app_assoc. reflexivity. }
    destruct rc; eexists _, _, _; (split; [reflexivity|exact Hc]).
  - eexists _, _, _. split; [reflexivity|exact Hcalls].
Qed.

Lemma save_csv_calls (data : list BrandRecord) (st : state) :
  exists r st' l,
    save_csv data st = (r, st') /\ calls st' = calls st ++ COpen OUTPUT_CSV :: l.
Proof.
  apply with_open_calls. intros s. unfold bind. step_op.
  - step_op; eexists _, _, _;
      (split; [reflexivity|rewrite Hcalls0, Hcalls, <- app_assoc; reflexivity]).
  - eexists _, _, _. split; [reflexivity|exact Hcalls].
Qed.

Lemma save_jsonl_calls (data : list BrandRecord) (st : state) :
  exists r st' l,
    save_jsonl data st = (r, st') /\ calls st' = calls st ++ COpen OUTPUT_JSONL :: l.
Proof. apply with_open_calls. intros s. apply write_lines_calls. Qed.

Lemma save_results_returns (data : list BrandRecord) (st : state) :
  exists st', save_results data st = (Ok tt, st').
Proof.
  destruct data as [|first rest]; simpl; [now exists st|].
  unfold bind, try_catch, ret.
  destruct (save_csv (first :: rest) st) as [[[]|e] st1];
    destruct (save_jsonl (first :: rest) st1) as [[[]|e'] st2];
    eexists; reflexivity.
Qed.

(** C6.  Given a non-empty sequence, the persister returns normally whatever
    the file operations do, and both outputs are attempted: the CSV file is
    opened, and later the JSONL file is opened.  After a failure of the CSV
    block the JSONL block runs from the state that failure left, and a failure
    of the JSONL block is not raised either. *)
Theorem save_results_attempts_both_formats :
  forall (data : list BrandRecord) (st : state),
    data <> [] ->
    (exists st' mid rest,
       save_results data st = (Ok tt, st')
       /\ calls st' = calls st ++ COpen OUTPUT_CSV :: mid ++ COpen OUTPUT_JSONL :: rest)
    /\ (forall e st1,
          save_csv data st = (Err e, st1) ->
          exists r st2,
            save_jsonl data st1 = (r, st2) /\ save_results data st = (Ok tt, st2)).
Proof.
  intros data st Hne. destruct data as [|first rest]; [congruence|].
  split.
  - simpl. unfold bind, try_catch, ret.
    destruct (save_csv_calls (first :: rest) st) as (r1 & st1 & l1 & Hrun1 & Hc1).
    destruct (save_jsonl_calls (first :: rest) st1) as (r2 & st2 & l2 & Hrun2 & Hc2).
    rewrite Hrun1.
    assert (Hc : calls st2 = calls st ++ COpen OUTPUT_CSV :: l1 ++ COpen OUTPUT_JSONL :: l2).
    { rewrite Hc2, Hc1, <- app_assoc. reflexivity. }
    destruct r1 as [[]|e1]; rewrite Hrun2; destruct r2 as [[]|e2];
      exists st2, l1, l2; (split; [reflexivity|exact Hc]).
  - intros e st1 Hcsv. simpl. unfold bind, try_catch, ret. rewrite Hcsv.
    destruct (save_jsonl (first :: rest) st1) as [[[]|e'] st2];
      eexists _, _; split; reflexivity.
Qed.

(** *** The run *)

Lemma run_steps_after_submit (st st1 st2 st3 : state) :
  invoke (CGoto SEARCH_ENTRY_URL) (page_goto SEARCH_ENTRY_URL) st = (Ok tt, st1) ->
  select_brand_document_type st1 = (Ok tt, st2) ->
  click_search_button st2 = (Ok tt, st3) ->
  exists st', run_steps st = (Ok tt, st').
Proof.
  intros Hgoto Hselect Hclick. unfold run_steps, try_catch, bind.
  rewrite Hgoto, Hselect, Hclick.
  destruct (wait_for_search_results_returns st3) as (b & st4 & Hwait).
  destruct (scrape_results_table_returns st4) as (data & st5 & Hscrape).
  destruct (save_results_returns data st5) as (st6 & Hsave).
  rewrite Hwait, Hscrape, Hsave. now exists st6.
Qed.

(** C7, as the code has it.  A failure of the navigation, of the filter
    selector or of the search submitter is re-raised by the run and makes
    [main] raise.  The results waiter, the table extractor and the persister
    never raise: a failure during table extraction makes the extractor return
    the empty sequence, and once the search is submitted the remaining steps
    complete normally. *)
Theorem step_failure_policy :
  forall st : state,
    (forall e st1,
       invoke (CGoto SEARCH_ENTRY_URL) (page_goto SEARCH_ENTRY_URL) st = (Err e, st1) ->
       run_steps st = (Err e, st1))
    /\ (forall st1 e st2,
          invoke (CGoto SEARCH_ENTRY_URL) (page_goto SEARCH_ENTRY_URL) st = (Ok tt, st1) ->
          select_brand_document_type st1 = (Err e, st2) ->
          run_steps st = (Err e, st2))
    /\ (forall st1 st2 e st3,
          invoke (CGoto SEARCH_ENTRY_URL) (page_goto SEARCH_ENTRY_URL) st = (Ok tt, st1) ->
          select_brand_document_type st1 = (Ok tt, st2) ->
          click_search_button st2 = (Err e, st3) ->
          run_steps st = (Err e, st3))
    /\ (forall st1 st2 st3,
          invoke (CGoto SEARCH_ENTRY_URL) (page_goto SEARCH_ENTRY_URL) st = (Ok tt, st1) ->
          select_brand_document_type st1 = (Ok tt, st2) ->
          click_search_button st2 = (Ok tt, st3) ->
          exists st', run_steps st = (Ok tt, st'))
    /\ (forall st1 st2 st3 st4 e st5,
          invoke CStart playwright_start st = (Ok tt, st1) ->
          invoke CLaunch chromium_launch st1 = (Ok tt, st2) ->
          invoke CNewContext browser_new_context st2 = (Ok tt, st3) ->
          invoke CNewPage context_new_page st3 = (Ok tt, st4) ->
          run_steps st4 = (Err e, st5) ->
          exists e' st', main st = (Err e', st'))
    /\ (exists b st', wait_for_search_results st = (Ok b, st'))
    /\ (exists data st', scrape_results_table st = (Ok data, st'))
    /\ (forall data, exists st', save_results data st = (Ok tt, st'))
    /\ (forall e st1,
          wait_for_selector (py "table") StateDefault TABLE_WAIT_TIMEOUT st = (Err e, st1) ->
          scrape_results_table st = (Ok [], st1))
    /\ (forall found st1 e st2,
          wait_for_selector (py "table") StateDefault TABLE_WAIT_TIMEOUT st = (Ok found, st1) ->
          invoke CQueryTables page_query_tables st1 = (Err e, st2) ->
          scrape_results_table st = (Ok [], st2))
    /\ (forall found st1 tables st2 e,
          wait_for_selector (py "table") StateDefault TABLE_WAIT_TIMEOUT st = (Ok found, st1) ->
          invoke CQueryTables page_query_tables st1 = (Ok tables, st2) ->
          extract_records tables = Err e ->
          scrape_results_table st = (Ok [], st2)).
Proof.
  intros st. repeat split.
  - intros e st1 H. unfold run_steps, try_catch, bind. now rewrite H.
  - intros st1 e st2 H1 H2. unfold run_steps, try_catch, bind. now rewrite H1, H2.
  - intros st1 st2 e st3 H1 H2 H3. unfold run_steps, try_catch, bind.
    now rewrite H1, H2, H3.
  - apply run_steps_after_submit.
  - intros st1 st2 st3 st4 e st5 H0 H1 H2 H3 H4.
    unfold main, bind, try_finally. rewrite H0, H1, H2, H3, H4.
    destruct (invoke CClose browser_close st5) as [[[]|e1] st6];
      destruct (invoke CStop playwright_stop st6) as [[[]|e2] st7];
      eexists _, _; reflexivity.
  - apply wait_for_search_results_returns.
  - apply scrape_results_table_returns.
  - intros data. apply save_results_returns.
  - intros e st1 H. unfold scrape_results_table, try_catch, bind. now rewrite H.
  - intros found st1 e st2 H1 H2. unfold scrape_results_table, try_catch, bind.
    now rewrite H1, H2.
  - intros found st1 tables st2 e H1 H2 H3.
    unfold scrape_results_table, try_catch, bind, lift. now rewrite H1, H2, H3.
Qed.

End WorkflowProperties.

(** ** Concrete runs on the scripted browser *)

Lemma wait_for_search_results_never_raises_witness :
  wait_for_search_results (B := scripted indicator_timeout_scenario) initial_state
  = (Ok true,
     {| world := 1; calls := [CWaitForSelector searching_text StateDefault 5000] |}).
Proof.
  destruct (@wait_for_search_results_never_raises nat unit
              (scripted indicator_timeout_scenario) initial_state)
    as (_ & Hfirst & _).
  exact (Hfirst PwTimeoutError _ eq_refl).
Defined.

Lemma already_checked_is_a_no_op_witness :
  select_brand_document_type (B := scripted sample_scenario) initial_state
  = (Ok tt,
     {| world := 2;
        calls := [ CWaitForSelector BRAND_CHECKBOX_ID StateDefault CHECKBOX_TIMEOUT;
                   CIsChecked tt ] |}).
Proof.
  exact (@already_checked_is_a_no_op nat unit (scripted sample_scenario)
           initial_state tt 1 2 eq_refl eq_refl).
Defined.

Lemma short_rows_are_left_out_witness :
  exists st' rec2 rec4,
    scrape_results_table (B := scripted sample_scenario) initial_state
    = (Ok [rec2; rec4], st')
    /\ row_number rec2 = 2 /\ row_number rec4 = 4
    /\ raw_data rec2 = [py "2021-001"; py "01/02/2021"; py "BRAND"; py "DOE JOHN"]
    /\ raw_data rec4 = [py "2021-002"; py "01/03/2021"; py "BRAND"].
Proof.
  destruct (@short_rows_are_left_out nat unit (scripted sample_scenario)) as [Hscenario _].
  exact (Hscenario initial_state (Some tt) 1 2 [layout_table; sample_table]
           sample_table 1 4 3 _ _ _ _ _ _ _ _
           eq_refl eq_refl eq_refl eq_refl eq_refl eq_refl
           eq_refl (le_S _ _ (le_n 3)) eq_refl eq_refl eq_refl (le_n 3)).
Defined.

Lemma save_results_attempts_both_formats_witness :
  exists r st1 st2,
    save_csv (B := scripted csv_failure_scenario) sample_records initial_state
    = (Err r, st1)
    /\ save_results (B := scripted csv_failure_scenario) sample_records initial_state
       = (Ok tt, st2)
    /\ In (COpen OUTPUT_JSONL) (calls st2).
Proof.
  destruct (@save_results_attempts_both_formats nat unit (scripted csv_failure_scenario)
              sample_records initial_state ltac:(discriminate))
    as [(st' & mid & rest & Hrun & Hcalls) Hafter].
  destruct (Hafter _ _ eq_refl) as (r & st2 & _ & Hrun2).
  eexists _, _, st'. split; [reflexivity|]. split; [exact Hrun|].
  rewrite Hcalls. apply in_or_app. right. right.
  apply in_or_app. right. now left.
Defined.

Lemma step_failure_policy_witness :
  (exists st', run_steps (B := scripted no_checkbox_scenario) initial_state
               = (Err PwTimeoutError, st'))
  /\ (exists st', scrape_results_table (B := scripted no_table_scenario) initial_state
                  = (Ok [], st')).
Proof.
  split.
  - destruct (@step_failure_policy nat unit (scripted no_checkbox_scenario) initial_state)
      as (_ & Hselect & _).
    eexists. exact (Hselect _ PwTimeoutError _ eq_refl eq_refl).
  - destruct (@step_failure_policy nat unit (scripted no_table_scenario) initial_state)
      as (_ & _ & _ & _ & _ & _ & _ & _ & Htable & _).
    eexists. exact (Htable PwTimeoutError _ eq_refl).
Defined.

(** C7 as stated fails: where every wait for a table raises, the extraction
    step fails in every run, and yet [main] returns normally. *)
Lemma extraction_failure_does_not_abort :
  (forall st, exists st',
      wait_for_selector (B := scripted no_table_scenario)
        (py "table") StateDefault TABLE_WAIT_TIMEOUT st = (Err PwTimeoutError, st'))
  /\ In (CWaitForSelector (py "table") StateDefault TABLE_WAIT_TIMEOUT)
        (calls (snd (main (B := scripted no_table_scenario) initial_state)))
  /\ fst (main (B := scripted no_table_scenario) initial_state) = Ok tt.
Proof.
  split; [|split].
  - intros st. eexists. reflexivity.
  - vm_compute. tauto.
  - vm_compute. reflexivity.
Qed.

(** ** The JSON round trip *)

Lemma hexval_hexdigit (d : N) : (d < 16)%N -> hexval (hexdigit d) = Some d.
Proof.
  intros Hd. unfold hexval, hexdigit.
  destruct (N.ltb_spec d 10).
  - assert (H1 : (48 <=? 48 + d)%N = true) by (apply N.leb_le; lia).
    assert (H2 : (48 + d <=? 57)%N = true) by (apply N.leb_le; lia).
    rewrite H1, H2. cbn [andb]. f_equal. lia.
  - assert (H1 : (87 + d <=? 57)%N = false) by (apply N.leb_gt; lia).
    assert (H2 : (97 <=? 87 + d)%N = true) by (apply N.leb_le; lia).
    assert (H3 : (87 + d <=? 102)%N = true) by (apply N.leb_le; lia).
    rewrite H1, andb_false_r, H2, H3. cbn [andb]. f_equal. lia.
Qed.

Lemma decode_hex4_hex4 (n : N) :
  (n < 65536)%N ->
  exists h1 h2 h3 h4, hex4 n = [h1; h2; h3; h4] /\ decode_hex4 h1 h2 h3 h4 = Some n.
Proof.
  intros Hn. eexists _, _, _, _. split; [reflexivity|].
  unfold decode_hex4.
  rewrite !hexval_hexdigit by (apply N.mod_lt; discriminate).
  f_equal.
  assert (H3 : (n / 4096 < 16)%N) by (apply N.Div0.div_lt_upper_bound; lia).
  rewrite (N.mod_small (n / 4096) 16) by exact H3.
  pose proof (N.div_mod n 16 ltac:(discriminate)) as E0.
  pose proof (N.div_mod (n / 16) 16 ltac:(discriminate)) as E1.
  pose proof (N.div_mod (n / 256) 16 ltac:(discriminate)) as E2.
  rewrite N.Div0.div_div in E1, E2. change (16 * 16)%N with 256%N in E1.
  change (256 * 16)%N with 4096%N in E2.
  lia.
Qed.


Lemma lor_shifted (a b k : N) :
  (b < 2 ^ k)%N -> N.lor (a * 2 ^ k) b = (a * 2 ^ k + b)%N.
Proof.
  intros Hb.
  assert (Hland : N.land (a * 2 ^ k) b = 0%N).
  { apply N.bits_inj. intros i. rewrite N.land_spec, N.bits_0.
    destruct (N.lt_ge_cases i k) as [Hlt|Hge].
    - now rewrite N.mul_pow2_bits_low.
    - destruct (N.eq_dec b 0) as [->|Hnz]; [now rewrite N.bits_0, andb_false_r|].
      rewrite (N.bits_above_log2 b i), andb_false_r; [reflexivity|].
      apply N.lt_le_trans with k; [|exact Hge].
      apply N.log2_lt_pow2; [lia|exact Hb]. }
  rewrite <- N.lxor_lor by exact Hland. symmetry. now apply N.add_nocarry_lxor.
Qed.

Lemma surrogates_of_code_point (c : N) :
  (65536 <= c)%N -> (c < 1114112)%N ->
  let n := (c - 65536)%N in
  let hi := N.lor 55296 (N.land (N.shiftr n 10) 1023) in
  let lo := N.lor 56320 (N.land n 1023) in
  (55296 <= hi)%N /\ (hi <= 56319)%N /\ (56320 <= lo)%N /\ (lo <= 57343)%N
  /\ join_surrogates hi lo = c.
Proof.
  intros Hlo Hhi n hi lo.
  assert (Hn : (n < 1048576)%N) by (unfold n; lia).
  assert (Hq : (n / 1024 < 1024)%N) by (apply N.Div0.div_lt_upper_bound; lia).
  assert (Hr : (n mod 1024 < 1024)%N) by (apply N.mod_lt; discriminate).
  assert (Ehi : hi = (55296 + n / 1024)%N).
  { unfold hi. change 1023%N with (N.ones 10).
    rewrite N.land_ones, N.shiftr_div_pow2. change (2 ^ 10)%N with 1024%N.
    rewrite N.mod_small by exact Hq.
    change 55296%N with (54 * 2 ^ 10)%N. rewrite lor_shifted; [reflexivity|exact Hq]. }
  assert (Elo : lo = (56320 + n mod 1024)%N).
  { unfold lo. change 1023%N with (N.ones 10).
    rewrite N.land_ones. change (2 ^ 10)%N with 1024%N.
    change 56320%N with (55 * 2 ^ 10)%N. rewrite lor_shifted; [reflexivity|exact Hr]. }
  pose proof (N.div_mod n 1024 ltac:(discriminate)) as Hdiv.
  clearbody hi lo. subst hi lo.
  set (q := (n / 1024)%N) in *. set (r := (n mod 1024)%N) in *.
  clearbody q r.
  repeat split; try lia.
  unfold join_surrogates.
  replace (55296 + q - 55296)%N with q by lia.
  replace (56320 + r - 56320)%N with r by lia.
  rewrite N.shiftl_mul_pow2, lor_shifted by exact Hr.
  change (2 ^ 10)%N with 1024%N. unfold n in *. lia.
Qed.

(** The four shapes of an escaped code point. *)
Lemma escape_char_shape (c : N) :
  (c < 1114112)%N ->
  (exists x, escape_char c = [92; x]%N /\ x <> 117%N /\ unescape x = Some c)
  \/ (escape_char c = [c] /\ c <> 34%N /\ c <> 92%N /\ (32 <= c)%N)
  \/ (escape_char c = u_escape c /\ (c < 65536)%N)
  \/ (exists hi lo,
        escape_char c = u_escape hi ++ u_escape lo
        /\ (55296 <= hi)%N /\ (hi <= 56319)%N /\ (56320 <= lo)%N /\ (lo <= 57343)%N
        /\ join_surrogates hi lo = c).
Proof.
  intros Hc. unfold escape_char.
  destruct (N.eqb_spec c 34) as [->|H34]; [left; exists 34%N; repeat split; discriminate|].
  destruct (N.eqb_spec c 92) as [->|H92]; [left; exists 92%N; repeat split; discriminate|].
  destruct (N.eqb_spec c 10) as [->|H10]; [left; exists 110%N; repeat split; discriminate|].
  destruct (N.eqb_spec c 13) as [->|H13]; [left; exists 114%N; repeat split; discriminate|].
  destruct (N.eqb_spec c 9) as [->|H9]; [left; exists 116%N; repeat split; discriminate|].
  destruct (N.eqb_spec c 8) as [->|H8]; [left; exists 98%N; repeat split; discriminate|].
  destruct (N.eqb_spec c 12) as [->|H12]; [left; exists 102%N; repeat split; discriminate|].
  destruct (N.leb_spec 32 c) as [H32|H32]; cbn [andb].
  - destruct (N.leb_spec c 126) as [H126|H126].
    + right. left. auto.
    + destruct (N.ltb_spec c 65536) as [Hbmp|Hbmp].
      * right. right. left. auto.
      * right. right. right.
        destruct (surrogates_of_code_point c Hbmp Hc) as (A1 & A2 & A3 & A4 & A5).
        eexists _, _. split; [reflexivity|]. auto.
  - destruct (N.ltb_spec c 65536) as [Hbmp|Hbmp]; [|lia].
    right. right. left. auto.
Qed.

Section Scanstring.

#[local] Arguments N.eqb : simpl never.
#[local] Arguments N.ltb : simpl never.
#[local] Arguments N.leb : simpl never.

Lemma scanstring_literal (c : N) (t : pystr) :
  c <> 34%N -> c <> 92%N -> (32 <= c)%N ->
  scanstring (c :: t) = push c (scanstring t).
Proof.
  intros H34 H92 H32. simpl.
  destruct (N.eqb_spec c 34); [contradiction|].
  destruct (N.eqb_spec c 92); [contradiction|].
  destruct (N.ltb_spec c 32); [lia|reflexivity].
Qed.

Lemma scanstring_simple_escape (x c : N) (t : pystr) :
  x <> 117%N -> unescape x = Some c ->
  scanstring (92%N :: x :: t) = push c (scanstring t).
Proof.
  intros Hx Hc. simpl.
  destruct (N.eqb_spec x 117); [contradiction|]. now rewrite Hc.
Qed.

(** A [\uXXXX] escape that is not a high surrogate decodes to its code point. *)
Lemma scanstring_u_escape (n : N) (t : pystr) :
  (n < 65536)%N -> is_high_surrogate n = false ->
  scanstring (u_escape n ++ t) = push n (scanstring t).
Proof.
  intros Hn Hhigh.
  destruct (decode_hex4_hex4 n Hn) as (h1 & h2 & h3 & h4 & Eh & Ed).
  unfold u_escape. rewrite Eh. simpl. now rewrite Ed, Hhigh.
Qed.

Lemma scanstring_surrogate_pair (hi lo : N) (t : pystr) :
  (55296 <= hi)%N -> (hi <= 56319)%N -> (56320 <= lo)%N -> (lo <= 57343)%N ->
  scanstring (u_escape hi ++ u_escape lo ++ t)
  = push (join_surrogates hi lo) (scanstring t).
Proof.
  intros H1 H2 H3 H4.
  destruct (decode_hex4_hex4 hi ltac:(lia)) as (h1 & h2 & h3 & h4 & Eh & Ed).
  destruct (decode_hex4_hex4 lo ltac:(lia)) as (l1 & l2 & l3 & l4 & El & Edl).
  assert (Hhi : is_high_surrogate hi = true).
  { unfold is_high_surrogate. apply andb_true_iff. split; apply N.leb_le; lia. }
  assert (Hlo : is_low_surrogate lo = true).
  { unfold is_low_surrogate. apply andb_true_iff. split; apply N.leb_le; lia. }
  unfold u_escape. rewrite Eh, El. simpl. now rewrite Ed, Hhi, Edl, Hlo.
Qed.

Lemma is_low_surrogate_false_of_high (hi : N) :
  (hi <= 56319)%N -> is_low_surrogate hi = false.
Proof.
  intros H. unfold is_low_surrogate. apply andb_false_iff. left.
  apply N.leb_gt. lia.
Qed.

(** A high surrogate that is not followed by a low surrogate stays alone. *)
Lemma scanstring_lone_high (n : N) (s : pystr) (rest : pystr) :
  (n < 65536)%N -> is_high_surrogate n = true ->
  forallb is_code_point s = true ->
  match s with d :: _ => is_low_surrogate d = false | [] => True end ->
  scanstring (u_escape n ++ flat_map escape_char s ++ 34%N :: rest)
  = push n (scanstring (flat_map escape_char s ++ 34%N :: rest)).
Proof.
  intros Hn Hhigh Hcp Hnext.
  destruct (decode_hex4_hex4 n Hn) as (h1 & h2 & h3 & h4 & Eh & Ed).
  unfold u_escape at 1. rewrite Eh.
  destruct s as [|d s].
  - destruct rest as [|u rest]; simpl; now rewrite Ed, Hhigh.
  - cbn [flat_map forallb] in *. apply andb_true_iff in Hcp as [Hd _].
    apply N.ltb_lt in Hd. rewrite <- app_assoc.
    generalize (flat_map escape_char s ++ 34%N :: rest). intros t.
    destruct (escape_char_shape d Hd)
      as [(x & E & Hx & _)|[(E & _ & H92 & _)|[(E & Hbmp)|(hi & lo & E & _ & Hhi & _)]]];
      rewrite E.
    + simpl. rewrite Ed, Hhigh.
      destruct (N.eqb_spec x 117); [contradiction|]. reflexivity.
    + destruct t as [|u t]; simpl; rewrite Ed, Hhigh; [reflexivity|].
      destruct (N.eqb_spec d 92); [contradiction|]. reflexivity.
    + destruct (decode_hex4_hex4 d Hbmp) as (l1 & l2 & l3 & l4 & El & Edl).
      unfold u_escape. rewrite El. simpl. now rewrite Ed, Hhigh, Edl, Hnext.
    + destruct (decode_hex4_hex4 hi ltac:(lia)) as (l1 & l2 & l3 & l4 & El & Edl).
      rewrite <- app_assoc. generalize (u_escape lo ++ t). intros t'.
      unfold u_escape. rewrite El. simpl.
      now rewrite Ed, Hhigh, Edl, (is_low_surrogate_false_of_high hi Hhi).
Qed.

Lemma scanstring_encoded (s : pystr) (rest : pystr) :
  json_text s = true ->
  scanstring (flat_map escape_char s ++ 34%N :: rest) = Some (s, rest).
Proof.
  unfold json_text. intros H. apply andb_true_iff in H as [Hcp Hpair].
  induction s as [|c s IH]; [reflexivity|].
  cbn [forallb] in Hcp. apply andb_true_iff in Hcp as [Hc Hcp].
  cbn [no_surrogate_pair] in Hpair. apply andb_true_iff in Hpair as [Hnext Hpair].
  specialize (IH Hcp Hpair).
  assert (Hstep : scanstring (flat_map escape_char (c :: s) ++ 34%N :: rest)
                  = push c (scanstring (flat_map escape_char s ++ 34%N :: rest))).
  { cbn [flat_map]. rewrite <- app_assoc.
    apply N.ltb_lt in Hc.
    destruct (escape_char_shape c Hc)
      as [(x & E & Hx & Hu)|[(E & H34 & H92 & H32)|[(E & Hbmp)|(hi & lo & E & A1 & A2 & A3 & A4 & A5)]]];
      rewrite E.
    - now apply scanstring_simple_escape.
    - now apply scanstring_literal.
    - destruct (is_high_surrogate c) eqn:Hhigh.
      + apply scanstring_lone_high; auto.
        destruct s as [|d s]; [exact I|].
        cbn [andb] in Hnext.
        now apply negb_true_iff in Hnext.
      + now apply scanstring_u_escape.
    - rewrite <- app_assoc, <- A5. now apply scanstring_surrogate_pair. }
  rewrite Hstep, IH. reflexivity.
Qed.

End Scanstring.

(** ** Integers *)

Lemma to_uint_no_leading_zero (p : positive) (d : Decimal.uint) :
  Pos.to_uint p <> Decimal.D0 d.
Proof.
  intros E.
  assert (Hnorm : Decimal.unorm (Pos.to_uint p) = Pos.to_uint p).
  { rewrite <- (DecimalPos.Unsigned.to_of (Pos.to_uint p)).
    now rewrite DecimalPos.Unsigned.of_to. }
  rewrite E, DecimalFacts.unorm_D0 in Hnorm.
  assert (Hd : d = Decimal.Nil \/ d <> Decimal.Nil)
    by (destruct d; [left; reflexivity|right; discriminate..]).
  destruct Hd as [->|Hd].
  - now apply (DecimalPos.Unsigned.to_uint_nonzero p).
  - pose proof (DecimalFacts.nb_digits_unorm d Hd) as Hle.
    rewrite Hnorm in Hle. cbn [Decimal.nb_digits] in Hle. lia.
Qed.

Lemma digit_of_uint_chars (u : Decimal.uint) (rest : pystr) :
  match rest with c :: _ => digit_of c = None | [] => True end ->
  scan_digits (uint_chars u ++ rest) = (u, rest).
Proof.
  intros Hrest. induction u; cbn [uint_chars app];
    [|simpl; now rewrite IHu ..].
  destruct rest as [|c rest]; [reflexivity|]. cbn [scan_digits]. now rewrite Hrest.
Qed.

Lemma scan_nonzero_digits (u : Decimal.uint) (rest : pystr) (neg : bool) :
  u <> Decimal.Nil -> (forall d, u <> Decimal.D0 d) -> ends_number rest ->
  match uint_chars u ++ rest with
  | [] => None
  | c :: r =>
      if (c =? 48)%N then if float_follows r then None else Some (0%Z, r)
      else
        match scan_digits (uint_chars u ++ rest) with
        | (Decimal.Nil, _) => None
        | (u', rest') =>
            if float_follows rest' then None
            else Some (Z.of_int (if neg then Decimal.Neg u' else Decimal.Pos u'), rest')
        end
  end = Some (Z.of_int (if neg then Decimal.Neg u else Decimal.Pos u), rest).
Proof.
  intros Hnil Hzero Hrest.
  assert (Hfloat : float_follows rest = false)
    by (destruct rest; [reflexivity|apply Hrest]).
  assert (Hdigits : scan_digits (uint_chars u ++ rest) = (u, rest)).
  { apply digit_of_uint_chars. destruct rest; [exact I|apply Hrest]. }
  rewrite Hdigits, Hfloat.
  destruct u; try congruence; try reflexivity.
Qed.

Lemma scan_int_encoded (z : Z) (rest : pystr) :
  ends_number rest -> scan_int (encode_int z ++ rest) = Some (z, rest).
Proof.
  intros Hrest. rewrite <- (DecimalZ.of_to z) at 2.
  unfold encode_int, scan_int. destruct z as [|p|p]; cbn [Z.to_int].
  - assert (Hfloat : float_follows rest = false)
      by (destruct rest; [reflexivity|apply Hrest]).
    simpl. now rewrite Hfloat.
  - pose proof (DecimalPos.Unsigned.to_uint_nonnil p) as Hnil.
    pose proof (to_uint_no_leading_zero p) as Hzero.
    rewrite <- (scan_nonzero_digits (Pos.to_uint p) rest false Hnil Hzero Hrest).
    destruct (Pos.to_uint p); try congruence; try reflexivity.
  - pose proof (DecimalPos.Unsigned.to_uint_nonnil p) as Hnil.
    pose proof (to_uint_no_leading_zero p) as Hzero.
    rewrite <- (scan_nonzero_digits (Pos.to_uint p) rest true Hnil Hzero Hrest).
    reflexivity.
Qed.

(** ** Values *)

Lemma uint_chars_head (u : Decimal.uint) :
  u <> Decimal.Nil ->
  exists c t, uint_chars u = c :: t /\ (48 <= c)%N /\ (c <= 57)%N.
Proof.
  intros Hnil. destruct u; [congruence|..]; eexists _, _;
    (split; [reflexivity|split; discriminate]).
Qed.

Lemma encode_int_head (z : Z) :
  exists c t, encode_int z = c :: t /\ (45 <= c)%N /\ (c <= 57)%N.
Proof.
  unfold encode_int. destruct z as [|p|p]; cbn [Z.to_int].
  - eexists _, _. split; [reflexivity|split; discriminate].
  - destruct (uint_chars_head _ (DecimalPos.Unsigned.to_uint_nonnil p))
      as (c & t & E & H1 & H2).
    exists c, t. split; [exact E|]. split; lia.
  - eexists _, _. split; [reflexivity|split; discriminate].
Qed.

Lemma parse_int_value (f : nat) (z : Z) (rest : pystr) :
  ends_number rest ->
  parse (S f) IValue (encode_int z ++ rest) = Some (JInt z, rest).
Proof.
  intros Hrest. pose proof (scan_int_encoded z rest Hrest) as Hscan.
  destruct (encode_int_head z) as (c & t & E & H1 & H2).
  rewrite E in *. cbn [app] in *. cbn [parse].
  destruct (N.eqb_spec c 34); [lia|]. destruct (N.eqb_spec c 91); [lia|].
  destruct (N.eqb_spec c 123); [lia|]. destruct (N.eqb_spec c 110); [lia|].
  destruct (N.eqb_spec c 116); [lia|]. destruct (N.eqb_spec c 102); [lia|].
  now rewrite Hscan.
Qed.

Lemma parse_string_value (f : nat) (s rest : pystr) :
  json_text s = true ->
  parse (S f) IValue (encode_string s ++ rest) = Some (JStr s, rest).
Proof.
  intros Hs. unfold encode_string. cbn [app]. rewrite <- app_assoc. cbn [app parse].
  change (34 =? 34)%N with true. cbv iota.
  now rewrite scanstring_encoded.
Qed.

Lemma skip_ws_encode_string (s rest : pystr) :
  skip_ws (encode_string s ++ rest) = encode_string s ++ rest.
Proof. reflexivity. Qed.

Lemma parse_elems_unfold (f : nat) (s : pystr) :
  parse (S f) IElems s =
    match parse f IValue s with
    | None => None
    | Some (v, r) =>
        match skip_ws r with
        | [] => None
        | c :: r1 =>
            if (c =? 93)%N then Some (JArr [v], r1)
            else if (c =? 44)%N then
              match parse f IElems (skip_ws r1) with
              | Some (JArr vs, rest) => Some (JArr (v :: vs), rest)
              | _ => None
              end
            else None
        end
    end.
Proof. reflexivity. Qed.

Ltac skip_ws_head :=
  match goal with
  | |- context [skip_ws (?c :: ?t)] =>
      first [ change (skip_ws (c :: t)) with (c :: t)
            | change (skip_ws (c :: t)) with (skip_ws t) ]
  end.

Lemma item_separator_chars : item_separator = [44; 32]%N.
Proof. reflexivity. Qed.

Lemma key_separator_chars : key_separator = [58; 32]%N.
Proof. reflexivity. Qed.

Lemma skip_ws_joined_strings (y : pystr) (l : list pystr) (t : pystr) :
  skip_ws (join item_separator (map encode_string (y :: l)) ++ t)
  = join item_separator (map encode_string (y :: l)) ++ t.
Proof. destruct l; reflexivity. Qed.

(** The elements of a non-empty list of strings, up to the closing bracket. *)
Lemma parse_string_elems (l : list pystr) :
  l <> [] -> forallb json_text l = true ->
  forall (f : nat) (rest : pystr),
    length l <= f ->
    parse (S f) IElems
      (join item_separator (map encode_string l) ++ 93%N :: rest)
    = Some (JArr (map JStr l), rest).
Proof.
  induction l as [|x l IH]; [congruence|].
  intros _ Hok f rest Hf. cbn [forallb] in Hok.
  apply andb_true_iff in Hok as [Hx Hl].
  destruct f as [|f]; [simpl in Hf; lia|].
  rewrite parse_elems_unfold.
  destruct l as [|y l].
  - cbn [map join]. rewrite parse_string_value by exact Hx. reflexivity.
  - change (join item_separator (map encode_string (x :: y :: l)))
      with (encode_string x ++ item_separator
              ++ join item_separator (map encode_string (y :: l))).
    rewrite <- !app_assoc.
    rewrite parse_string_value by exact Hx.
    rewrite item_separator_chars. cbn [app].
    skip_ws_head. cbv beta iota. cbn [N.eqb Pos.eqb].
    skip_ws_head. rewrite <- item_separator_chars.
    rewrite skip_ws_joined_strings.
    rewrite IH; [reflexivity|discriminate|exact Hl|simpl in *; lia].
Qed.

Lemma parse_array_unfold (f : nat) (r : pystr) :
  parse (S f) IValue (91%N :: r) =
    match skip_ws r with
    | [] => None
    | c1 :: r1 =>
        if (c1 =? 93)%N then Some (JArr [], r1) else parse f IElems (c1 :: r1)
    end.
Proof. reflexivity. Qed.

Lemma parse_object_unfold (f : nat) (r : pystr) :
  parse (S f) IValue (123%N :: r) =
    match skip_ws r with
    | [] => None
    | c1 :: r1 =>
        if (c1 =? 125)%N then Some (JObj [], r1) else parse f IMembers (c1 :: r1)
    end.
Proof. reflexivity. Qed.

Lemma parse_members_unfold (f : nat) (r : pystr) :
  parse (S f) IMembers (34%N :: r) =
    match scanstring r with
    | None => None
    | Some (key, r1) =>
        match skip_ws r1 with
        | [] => None
        | colon :: r2 =>
            if (colon =? 58)%N then
              match parse f IValue (skip_ws r2) with
              | None => None
              | Some (v, r3) =>
                  match skip_ws r3 with
                  | [] => None
                  | c :: r4 =>
                      if (c =? 125)%N then Some (JObj [(key, v)], r4)
                      else if (c =? 44)%N then
                        match parse f IMembers (skip_ws r4) with
                        | Some (JObj ms, rest) => Some (JObj ((key, v) :: ms), rest)
                        | _ => None
                        end
                      else None
                  end
              end
            else None
        end
    end.
Proof. reflexivity. Qed.

Lemma parses_int (z : Z) : parses 1 (JInt z).
Proof.
  intros f t Hf Ht. destruct f as [|f]; [lia|]. split.
  - now apply parse_int_value.
  - cbn [json_dumps]. destruct (encode_int_head z) as (c & r & E & H1 & H2).
    rewrite E. cbn [app skip_ws]. unfold json_ws.
    destruct (N.eqb_spec c 32); [lia|]. destruct (N.eqb_spec c 9); [lia|].
    destruct (N.eqb_spec c 10); [lia|]. destruct (N.eqb_spec c 13); [lia|].
    reflexivity.
Qed.

Lemma parses_string (s : pystr) : json_text s = true -> parses 1 (JStr s).
Proof.
  intros Hs f t Hf Ht. destruct f as [|f]; [lia|]. split; [|reflexivity].
  now apply parse_string_value.
Qed.

Lemma dumps_string_array (l : list pystr) :
  json_dumps (JArr (map JStr l))
  = 91%N :: join item_separator (map encode_string l) ++ [93%N].
Proof. cbn [json_dumps]. now rewrite map_map. Qed.

Lemma parses_string_array (l : list pystr) :
  forallb json_text l = true -> parses (length l + 2) (JArr (map JStr l)).
Proof.
  intros Hl f t Hf Ht. split; [|reflexivity].
  destruct f as [|[|f]]; try lia.
  rewrite dumps_string_array. cbn [app]. rewrite <- app_assoc. cbn [app].
  rewrite parse_array_unfold.
  destruct l as [|y l]; [reflexivity|].
  rewrite skip_ws_joined_strings.
  assert (Hhead : exists r, join item_separator (map encode_string (y :: l)) ++ 93%N :: t
                            = 34%N :: r)
    by (destruct l; eexists; reflexivity).
  destruct Hhead as (r & E). rewrite E. cbv beta iota. cbn [N.eqb Pos.eqb].
  rewrite <- E. apply parse_string_elems; [discriminate|exact Hl|simpl in *; lia].
Qed.

Lemma dumps_object (ms : list (pystr * json)) :
  json_dumps (JObj ms) = 123%N :: join item_separator (map dump_member ms) ++ [125%N].
Proof. reflexivity. Qed.

Lemma joined_members_head (m : pystr * json) (ms : list (pystr * json)) (t : pystr) :
  join item_separator (map dump_member (m :: ms)) ++ t
  = 34%N :: flat_map escape_char (fst m) ++ 34%N :: key_separator ++ json_dumps (snd m)
      ++ match ms with
         | [] => t
         | _ :: _ => item_separator ++ join item_separator (map dump_member ms) ++ t
         end.
Proof.
  destruct ms as [|m' ms]; cbn [map join]; unfold dump_member at 1, encode_string;
    cbn [app]; now rewrite <- !app_assoc.
Qed.

Lemma ends_number_delimiter (c : N) (t : pystr) :
  c = 44%N \/ c = 93%N \/ c = 125%N \/ c = 10%N -> ends_number (c :: t).
Proof. intros [->|[->|[->| ->]]]; split; reflexivity. Qed.

(** The members of a non-empty object, up to the closing brace. *)
Lemma parse_members_list (n : nat) (ms : list (pystr * json)) :
  ms <> [] ->
  Forall (fun kv => json_text (fst kv) = true /\ parses n (snd kv)) ms ->
  forall (f : nat) (rest : pystr),
    length ms + n <= f ->
    parse f IMembers (join item_separator (map dump_member ms) ++ 125%N :: rest)
    = Some (JObj ms, rest).
Proof.
  induction ms as [|[key v] ms IH]; [congruence|].
  intros _ Hall f rest Hf. inversion Hall as [|kv ms' [Hkey Hv] Hms]; subst.
  cbn [fst snd] in *.
  destruct f as [|f]; [simpl in Hf; lia|].
  rewrite (joined_members_head (key, v) ms (125%N :: rest)). cbn [fst snd]. rewrite parse_members_unfold.
  rewrite scanstring_encoded by exact Hkey.
  rewrite key_separator_chars. cbn [app].
  skip_ws_head. cbv beta iota. cbn [N.eqb Pos.eqb]. skip_ws_head.
  destruct ms as [|m' ms].
  - destruct (Hv f (125%N :: rest)) as [Hparse Hws];
      [simpl in Hf; lia|apply ends_number_delimiter; auto|].
    rewrite Hws, Hparse. reflexivity.
  - rewrite item_separator_chars at 1. cbn [app].
    destruct (Hv f (44%N :: 32%N :: join item_separator (map dump_member (m' :: ms))
                      ++ 125%N :: rest)) as [Hparse Hws];
      [simpl in Hf; lia|apply ends_number_delimiter; auto|].
    rewrite Hws, Hparse.
    skip_ws_head. cbv beta iota. cbn [N.eqb Pos.eqb]. skip_ws_head.
    pose proof (joined_members_head m' ms (125%N :: rest)) as E'.
    assert (Hskip : skip_ws (join item_separator (map dump_member (m' :: ms)) ++ 125%N :: rest)
                    = join item_separator (map dump_member (m' :: ms)) ++ 125%N :: rest)
      by (rewrite E'; reflexivity).
    rewrite Hskip, IH; [reflexivity|discriminate|exact Hms|simpl in *; lia].
Qed.

Lemma parses_object (n : nat) (ms : list (pystr * json)) :
  Forall (fun kv => json_text (fst kv) = true /\ parses n (snd kv)) ms ->
  parses (length ms + n + 1) (JObj ms).
Proof.
  intros Hall f t Hf Ht. split; [|reflexivity].
  destruct f as [|f]; [lia|].
  rewrite dumps_object. cbn [app]. rewrite <- app_assoc. cbn [app].
  rewrite parse_object_unfold.
  destruct ms as [|m ms]; [reflexivity|].
  pose proof (joined_members_head m ms (125%N :: t)) as E.
  rewrite E. skip_ws_head. cbv beta iota. cbn [N.eqb Pos.eqb]. rewrite <- E.
  apply (parse_members_list n); [discriminate|exact Hall|simpl in *; lia].
Qed.

Lemma parses_weaken (n m : nat) (v : json) : n <= m -> parses n v -> parses m v.
Proof. intros Hnm Hv f t Hf Ht. apply Hv; [lia|exact Ht]. Qed.

Lemma parses_record (r : BrandRecord) :
  record_text_ok r = true -> parses (length (raw_data r) + 11) (record_dict r).
Proof.
  unfold record_text_ok. rewrite !andb_true_iff.
  intros [[[[[[H1 H2] H3] H4] H5] H6] H7].
  apply (parses_weaken (8 + (length (raw_data r) + 2) + 1)); [lia|].
  unfold record_dict.
  assert (Hstr : forall s, json_text s = true -> parses (length (raw_data r) + 2) (JStr s))
    by (intros s Hs; apply (parses_weaken 1); [lia|now apply parses_string]).
  match goal with
  | |- parses _ (JObj ?ms) => apply (parses_object (length (raw_data r) + 2) ms)
  end.
  repeat (apply Forall_cons; [split; [reflexivity|cbn [snd]]|]);
    try apply Forall_nil; try (apply Hstr; assumption).
  - apply (parses_weaken 1); [lia|apply parses_int].
  - now apply parses_string_array.
Qed.

Lemma length_encode_string (s : pystr) : 2 <= length (encode_string s).
Proof. unfold encode_string. cbn [length]. rewrite length_app. simpl. lia. Qed.

Lemma length_joined_strings (l : list pystr) :
  length l <= length (join item_separator (map encode_string l)).
Proof.
  induction l as [|x l IH]; [apply Nat.le_0_l|].
  pose proof (length_encode_string x).
  destruct l as [|y l]; [simpl in *; lia|].
  change (join item_separator (map encode_string (x :: y :: l)))
    with (encode_string x ++ item_separator
            ++ join item_separator (map encode_string (y :: l))).
  rewrite !length_app. simpl in *. lia.
Qed.

Lemma length_record_dump (r : BrandRecord) :
  length (raw_data r) + 11 <= length (json_dumps (record_dict r)).
Proof.
  pose proof (length_joined_strings (raw_data r)) as Hraw.
  unfold record_dict. rewrite dumps_object. cbn [map join]. unfold dump_member.
  cbn [fst snd]. rewrite dumps_string_array.
  repeat (progress cbn [length] || rewrite length_app).
  pose proof (length_encode_string (py "row_number")).
  pose proof (length_encode_string (py "instrument_number")).
  pose proof (length_encode_string (py "date")).
  pose proof (length_encode_string (py "doc_type")).
  pose proof (length_encode_string (py "grantor")).
  lia.
Qed.

(** ** One record, one line *)

Lemma hexdigit_printable (d : N) : (48 <= hexdigit d)%N.
Proof. unfold hexdigit. destruct (N.ltb_spec d 10); lia. Qed.

Lemma u_escape_printable (n x : N) : In x (u_escape n) -> (32 <= x)%N.
Proof.
  unfold u_escape, hex4. cbn [In].
  intros [<-|[<-|[<-|[<-|[<-|[<-|[]]]]]]]; try discriminate;
    (eapply N.le_trans; [|apply hexdigit_printable]); discriminate.
Qed.

Lemma escape_char_printable (c x : N) : In x (escape_char c) -> (32 <= x)%N.
Proof.
  unfold escape_char.
  repeat match goal with
         | |- In _ (if (?a =? ?b)%N then _ else _) -> _ =>
             destruct (N.eqb_spec a b);
             [cbn [In]; intros [<-|[<-|[]]]; discriminate|]
         end.
  destruct (N.leb_spec 32 c) as [H32|H32]; cbn [andb].
  - destruct (N.leb_spec c 126) as [H126|H126].
    + cbn [In]. intros [<-|[]]. assumption.
    + destruct (N.ltb_spec c 65536) as [Hb|Hb]; [apply u_escape_printable|].
      intros Hx. apply in_app_or in Hx as [Hx|Hx]; eapply u_escape_printable; eassumption.
  - destruct (N.ltb_spec c 65536) as [Hb|Hb]; [apply u_escape_printable|].
    intros Hx. apply in_app_or in Hx as [Hx|Hx]; eapply u_escape_printable; eassumption.
Qed.

Lemma encode_string_printable (s : pystr) (x : N) :
  In x (encode_string s) -> (32 <= x)%N.
Proof.
  unfold encode_string. cbn [In]. intros [<-|H]; [discriminate|].
  apply in_app_or in H as [H|[<-|[]]]; [|discriminate].
  apply in_flat_map in H as (c & _ & H). eapply escape_char_printable; eassumption.
Qed.

Lemma uint_chars_printable (u : Decimal.uint) (x : N) :
  In x (uint_chars u) -> (32 <= x)%N.
Proof.
  induction u; cbn [uint_chars In]; [tauto|..];
    (intros [<-|H]; [discriminate|now apply IHu]).
Qed.

Lemma encode_int_printable (z : Z) (x : N) : In x (encode_int z) -> (32 <= x)%N.
Proof.
  unfold encode_int. destruct (Z.to_int z); [apply uint_chars_printable|].
  cbn [In]. intros [<-|H]; [discriminate|now apply uint_chars_printable in H].
Qed.

Lemma join_printable (sep : pystr) (parts : list pystr) :
  Forall (fun c => 32 <= c)%N sep ->
  Forall (Forall (fun c => 32 <= c)%N) parts ->
  Forall (fun c => 32 <= c)%N (join sep parts).
Proof.
  intros Hsep. induction 1 as [|p parts Hp Hparts IH]; [constructor|].
  destruct parts as [|q parts]; [exact Hp|].
  change (join sep (p :: q :: parts)) with (p ++ sep ++ join sep (q :: parts)).
  apply Forall_app. split; [exact Hp|]. apply Forall_app. split; [exact Hsep|exact IH].
Qed.

Lemma record_dump_printable (r : BrandRecord) :
  Forall (fun c => 32 <= c)%N (json_dumps (record_dict r)).
Proof.
  assert (Hstr : forall s, Forall (fun c => 32 <= c)%N (encode_string s))
    by (intros s; apply Forall_forall; apply encode_string_printable).
  assert (Hsep : Forall (fun c => 32 <= c)%N item_separator)
    by (repeat constructor; discriminate).
  assert (Hkey : Forall (fun c => 32 <= c)%N key_separator)
    by (repeat constructor; discriminate).
  unfold record_dict. rewrite dumps_object.
  constructor; [discriminate|]. apply Forall_app. split; [|repeat constructor; discriminate].
  apply join_printable; [exact Hsep|].
  repeat (apply Forall_cons;
          [unfold dump_member; cbn [fst snd]; apply Forall_app; split; [apply Hstr|];
           apply Forall_app; split; [exact Hkey|] |]);
    try apply Forall_nil.
  - apply Forall_forall. apply encode_int_printable.
  - apply Hstr.
  - apply Hstr.
  - apply Hstr.
  - apply Hstr.
  - apply Hstr.
  - apply Hstr.
  - rewrite dumps_string_array. constructor; [discriminate|].
    apply Forall_app. split; [|repeat constructor; discriminate].
    apply join_printable; [exact Hsep|].
    apply Forall_forall. intros p Hp. apply in_map_iff in Hp as (s & <- & _). apply Hstr.
Qed.

(** The text written for a record holds one line feed, at its end. *)
Lemma jsonl_line_is_one_line (r : BrandRecord) :
  ~ In 10%N (json_dumps (record_dict r)).
Proof.
  intros H. pose proof (record_dump_printable r) as Hall.
  rewrite Forall_forall in Hall. specialize (Hall _ H). lia.
Qed.

(** C9, as the code has it.  For a record whose strings are sequences of code
    points in which no high surrogate is immediately followed by a low
    surrogate, the line written to the JSONL output is read back by
    [json.loads] as the dict of the record: [row_number] as the same integer,
    the six named fields as the same strings and [raw_data] as the same list
    of strings.  The text holds no line feed but the one that ends it, so
    that the record is one line of the file. *)
Theorem jsonl_line_round_trip :
  forall r : BrandRecord,
    record_text_ok r = true ->
    json_loads (jsonl_line r) = Some (record_dict r)
    /\ ~ In 10%N (json_dumps (record_dict r)).
Proof.
  intros r Hr. split; [|apply jsonl_line_is_one_line].
  unfold json_loads, jsonl_line.
  destruct (parses_record r Hr (S (length (json_dumps (record_dict r) ++ [10%N])))
              [10%N]) as [Hparse Hws].
  - rewrite length_app. pose proof (length_record_dump r). cbn [length]. lia.
  - apply ends_number_delimiter. auto.
  - rewrite Hws, Hparse. reflexivity.
Qed.

Lemma jsonl_line_round_trip_witness :
  json_loads (jsonl_line (make_record 1 [py "2021-001"; [233; 10; 34; 128512]%N; py "BRAND"]))
  = Some (record_dict (make_record 1 [py "2021-001"; [233; 10; 34; 128512]%N; py "BRAND"])).
Proof.
  exact (proj1 (jsonl_line_round_trip
                  (make_record 1 [py "2021-001"; [233; 10; 34; 128512]%N; py "BRAND"])
                  eq_refl)).
Defined.

(** C9 as stated fails: two adjacent surrogate code points are read back as
    one code point. *)
Lemma surrogate_pair_is_not_read_back :
  json_loads (jsonl_line surrogate_record) = Some (record_dict joined_record)
  /\ json_loads (jsonl_line surrogate_record) <> Some (record_dict surrogate_record).
Proof.
  assert (H : json_loads (jsonl_line surrogate_record) = Some (record_dict joined_record))
    by (vm_compute; reflexivity).
  split; [exact H|]. rewrite H. vm_compute. discriminate.
Qed.

(** * Further properties *)

(** ** The output sequence *)

Lemma good_row_has_its_record (rows : list Row) (start i : nat) (row : Row)
      (cells : list Cell) :
  start <= i -> nth_error rows i = Some row -> query_td row = Ok cells ->
  3 <= length cells ->
  In (make_record i (map cell_text cells)) (parse_rows rows start).
Proof.
  intros Hs Hrow Hq Hlen.
  assert (Hi : i < length rows) by (apply nth_error_Some; congruence).
  rewrite (parse_rows_split rows start i Hs Hi).
  apply in_or_app. right. apply in_or_app. left.
  unfold parse_index, parse_row. rewrite Hrow, Hq.
  apply Nat.leb_le in Hlen. rewrite Hlen. now left.
Qed.

(** X1.  The output of the row loop holds exactly the records of the rows at or
    after the start row that answer at least three [<td>] cells: each such
    row has its record, and every record comes from such a row, carrying the
    row's index plus one and the normalised texts of its cells. *)
Theorem record_comes_from_a_row :
  forall (rows : list Row) (start : nat) (r : BrandRecord),
    In r (parse_rows rows start) <->
    exists i row cells,
      start <= i /\ nth_error rows i = Some row /\ query_td row = Ok cells
      /\ 3 <= length cells /\ r = make_record i (map cell_text cells).
Proof.
  intros rows start r. split; [apply in_parse_rows|].
  intros (i & row & cells & Hs & Hrow & Hq & Hlen & ->).
  now apply (good_row_has_its_record rows start i row cells).
Qed.

Lemma row_numbers_of_range (rows : list Row) (n start : nat) :
  StronglySorted lt (map row_number (flat_map (parse_index rows) (seq start n)))
  /\ Forall (fun k => start < k <= start + n)
            (map row_number (flat_map (parse_index rows) (seq start n)))
  /\ length (flat_map (parse_index rows) (seq start n)) <= n.
Proof.
  revert start. induction n as [|n IH]; intros start.
  - simpl. repeat split; constructor.
  - destruct (IH (S start)) as (Hsorted & Hbounds & Hlen).
    cbn [seq flat_map]. rewrite map_app, length_app.
    assert (Hhead : parse_index rows start = []
                    \/ exists r, parse_index rows start = [r] /\ row_number r = start + 1).
    { unfold parse_index. destruct (nth_error rows start) as [row|]; [|now left].
      destruct (parse_row_cases start row) as [(cells & _ & _ & E)|[_ E]];
        rewrite E; [right|now left].
      eexists. split; reflexivity. }
    destruct Hhead as [E|(r & E & Hr)]; rewrite E; cbn [map app length].
    + repeat split; [exact Hsorted| |lia].
      eapply Forall_impl; [|exact Hbounds]. cbv beta. intros k Hk. lia.
    + repeat split.
      * constructor; [exact Hsorted|].
        eapply Forall_impl; [|exact Hbounds]. cbv beta. intros k Hk. lia.
      * constructor; [lia|].
        eapply Forall_impl; [|exact Hbounds]. cbv beta. intros k Hk. lia.
      * lia.
Qed.

(** X2.  The records come out in table order: their row numbers are strictly
    increasing, each lies above the start row and at most at the number of
    rows, and there are no more records than rows from the start row on. *)
Theorem row_numbers_are_increasing :
  forall (rows : list Row) (start : nat),
    StronglySorted lt (map row_number (parse_rows rows start))
    /\ Forall (fun k => start < k <= length rows)
              (map row_number (parse_rows rows start))
    /\ length (parse_rows rows start) <= length rows - start.
Proof.
  intros rows start. unfold parse_rows.
  destruct (row_numbers_of_range rows (length rows - start) start)
    as (Hsorted & Hbounds & Hlen).
  repeat split; [exact Hsorted| |exact Hlen].
  destruct (Nat.le_gt_cases start (length rows)) as [Hle|Hgt].
  - eapply Forall_impl; [|exact Hbounds]. cbv beta. intros k Hk. lia.
  - replace (length rows - start) with 0 by lia. constructor.
Qed.

(** ** Substrings *)

Lemma startswith_spec (p s : pystr) :
  startswith p s = true <-> exists t, s = p ++ t.
Proof.
  revert s. induction p as [|a p IH]; intros s; simpl.
  - split; [intros _; now exists s|reflexivity].
  - destruct s as [|b s].
    + split; [discriminate|intros (t & H); discriminate].
    + rewrite andb_true_iff, N.eqb_eq, IH. split.
      * intros [-> (t & ->)]. now exists t.
      * intros (t & H). injection H as -> ->. split; [reflexivity|now exists t].
Qed.

(** [sub in s] holds exactly when [s] has [sub] as a contiguous part. *)
Lemma contains_spec (sub s : pystr) :
  contains sub s = true <-> exists pre post, s = pre ++ sub ++ post.
Proof.
  induction s as [|c s IH].
  - simpl. rewrite orb_false_r, startswith_spec. split.
    + intros (t & H). exists [], t. exact H.
    + intros (pre & post & H). destruct pre as [|x pre]; [|discriminate].
      now exists post.
  - cbn [contains]. rewrite orb_true_iff, startswith_spec, IH. split.
    + intros [(t & H)|(pre & post & H)].
      * exists [], t. exact H.
      * exists (c :: pre), post. now rewrite H.
    + intros (pre & post & H). destruct pre as [|x pre].
      * left. now exists post.
      * right. injection H as _ H. now exists pre, post.
Qed.

Lemma contains_suffix (sub pre s : pystr) :
  contains sub s = true -> contains sub (pre ++ s) = true.
Proof.
  rewrite !contains_spec. intros (a & b & ->). exists (pre ++ a), b.
  now rewrite <- app_assoc.
Qed.

Lemma contains_prefix (sub s post : pystr) :
  contains sub s = true -> contains sub (s ++ post) = true.
Proof.
  rewrite !contains_spec. intros (a & b & ->). exists a, (b ++ post).
  now rewrite <- !app_assoc.
Qed.

Lemma lstrip_suffix (s : pystr) : exists pre, s = pre ++ lstrip s.
Proof.
  induction s as [|c s (pre & IH)]; [now exists []|].
  simpl. destruct (py_isspace c); [|now exists []].
  exists (c :: pre). simpl. now rewrite <- IH.
Qed.

Lemma strip_inside (s : pystr) : exists pre post, s = pre ++ strip s ++ post.
Proof.
  destruct (lstrip_suffix s) as (pre & Hs).
  destruct (lstrip_suffix (rev (lstrip s))) as (q & Hq).
  exists pre, (rev q). unfold strip, rstrip.
  rewrite <- rev_app_distr, <- Hq, rev_involutive. exact Hs.
Qed.

(** ** Cell texts *)

(** A prefix of the replaced text that has no space is a prefix of the
    original text. *)
Lemma startswith_replaced (p s : pystr) :
  Forall (fun c => c <> 32%N) p ->
  startswith p (replace nbsp space s) = true -> startswith p s = true.
Proof.
  intros Hp. revert s. induction Hp as [|a p Ha Hp IH]; intros s; [reflexivity|].
  destruct s as [|c s]; [discriminate|].
  unfold replace. cbn [replace_from].
  destruct (startswith nbsp (c :: s)) eqn:Hm.
  - cbn [space py map list_ascii_of_string app startswith].
    change (N_of_ascii " ") with 32%N.
    destruct (N.eqb_spec a 32); [contradiction|discriminate].
  - cbn [startswith]. rewrite !andb_true_iff. intros [Hac Hrest].
    split; [exact Hac|]. apply IH. exact Hrest.
Qed.

Lemma replaced_has_no_placeholder (k : nat) (s : pystr) :
  contains nbsp (replace_from nbsp space k s) = false.
Proof.
  revert k. induction s as [|c s IH]; intros k; [reflexivity|].
  cbn [replace_from]. destruct k as [|k]; [|apply IH].
  destruct (startswith nbsp (c :: s)) eqn:Hm.
  - cbn [space py map list_ascii_of_string app contains].
    rewrite IH. reflexivity.
  - cbn [contains]. rewrite IH, orb_false_r.
    destruct (startswith nbsp (c :: replace_from nbsp space 0 s)) eqn:Hout;
      [|reflexivity].
    assert (Hin : startswith nbsp (c :: s) = true).
    { apply startswith_replaced.
      - repeat constructor; discriminate.
      - unfold replace. cbn [replace_from]. rewrite Hm. exact Hout. }
    congruence.
Qed.

(** X3.  Every text kept in the [raw_data] of an output record is normalised: it
    holds no ["&nbsp;"] placeholder and neither starts nor ends with white
    space. *)
Theorem cell_texts_are_normalised :
  forall (rows : list Row) (start : nat) (r : BrandRecord) (text : pystr),
    In r (parse_rows rows start) ->
    In text (raw_data r) ->
    contains nbsp text = false
    /\ match text with c :: _ => py_isspace c = false | [] => True end
    /\ match rev text with c :: _ => py_isspace c = false | [] => True end.
Proof.
  intros rows start r text Hr Htext.
  apply in_parse_rows in Hr as (i & row & cells & _ & _ & _ & _ & ->).
  cbn [raw_data make_record] in Htext.
  apply in_map_iff in Htext as (c & <- & _).
  unfold cell_text. destruct (cell_inner_text c) as [t|e]; [|now repeat split].
  split; [|apply strip_trims].
  destruct (contains nbsp (strip (replace nbsp space t))) eqn:Hc; [|reflexivity].
  destruct (strip_inside (replace nbsp space t)) as (pre & post & E).
  pose proof (replaced_has_no_placeholder 0 t) as Hno.
  fold (replace nbsp space t) in Hno. rewrite E in Hno.
  rewrite (contains_suffix nbsp pre _ (contains_prefix nbsp _ post Hc)) in Hno.
  discriminate.
Qed.

(** ** More on table discovery *)

Lemma find_from_first (tables : list Table) :
  forall start,
    match find_from start tables with
    | Some (t, i, nr, nc) =>
        start <= i /\ nth_error tables (i - start) = Some t
        /\ check_table t = Ok (Some (nr, nc))
        /\ forall j t', j < i - start -> nth_error tables j = Some t' ->
             forall d, check_table t' <> Ok (Some d)
    | None =>
        forall t', In t' tables -> forall d, check_table t' <> Ok (Some d)
    end.
Proof.
  induction tables as [|table rest IH]; intros start; simpl; [tauto|].
  destruct (check_table table) as [[[nr nc]|]|e] eqn:Hc.
  - rewrite Nat.sub_diag. repeat split; auto. intros j t' Hj. lia.
  - specialize (IH (S start)).
    destruct (find_from (S start) rest) as [[[[t i] nr] nc]|].
    + destruct IH as (Hle & Hnth & Hchk & Hbefore).
      replace (i - start) with (S (i - S start)) by lia.
      repeat split; auto; [lia|].
      intros [|j] t' Hj Ht' d; simpl in Ht'.
      * injection Ht' as <-. congruence.
      * apply (Hbefore j t'); [lia|exact Ht'].
    + intros t' [<-|Hin] d; [congruence|now apply IH].
  - specialize (IH (S start)).
    destruct (find_from (S start) rest) as [[[[t i] nr] nc]|].
    + destruct IH as (Hle & Hnth & Hchk & Hbefore).
      replace (i - start) with (S (i - S start)) by lia.
      repeat split; auto; [lia|].
      intros [|j] t' Hj Ht' d; simpl in Ht'.
      * injection Ht' as <-. congruence.
      * apply (Hbefore j t'); [lia|exact Ht'].
    + intros t' [<-|Hin] d; [congruence|now apply IH].
Qed.

(** X4.  Table discovery returns the first table, in document order, that passes
    the inspection, with its index, its number of rows (more than one) and
    the width of its first row (at least three); it returns nothing exactly
    when no table passes. *)
Theorem discovery_selects_first_accepted_table :
  forall tables : list Table,
    match find_results_table tables with
    | Some (t, i, nr, nc) =>
        nth_error tables i = Some t
        /\ check_table t = Ok (Some (nr, nc))
        /\ 1 < nr /\ 3 <= nc
        /\ forall j t', j < i -> nth_error tables j = Some t' ->
             forall d, check_table t' <> Ok (Some d)
    | None =>
        forall t', In t' tables -> forall d, check_table t' <> Ok (Some d)
    end.
Proof.
  intros tables. unfold find_results_table.
  pose proof (find_from_first tables 0) as H.
  destruct (find_from 0 tables) as [[[[t i] nr] nc]|]; [|exact H].
  destruct H as (_ & Hnth & Hchk & Hbefore). rewrite Nat.sub_0_r in *.
  destruct (check_table_accepts t nr nc Hchk)
    as (rows & row0 & cells & _ & Hlen & -> & _ & _ & Hw & -> & _).
  repeat split; auto.
Qed.

(** X5.  The cells of a sampled row are read in order up to the first one whose
    text counts as data: the scan succeeds exactly when such a cell exists
    and every cell before it could be read and held no data. *)
Theorem sampling_stops_at_first_meaningful_cell :
  forall cells : list Cell,
    scan_cells cells = Ok true <->
    exists pre c post text,
      cells = pre ++ c :: post
      /\ cell_inner_text c = Ok text /\ meaningful text = true
      /\ forall c', In c' pre ->
           exists t', cell_inner_text c' = Ok t' /\ meaningful t' = false.
Proof.
  induction cells as [|c cells IH]; simpl.
  - split; [discriminate|].
    intros (pre & c & post & text & H & _). destruct pre; discriminate.
  - destruct (cell_inner_text c) as [text|e] eqn:Htext; simpl.
    + destruct (meaningful text) eqn:Hm.
      * split; [intros _|reflexivity].
        exists [], c, cells, text. repeat split; auto. intros c' [].
      * rewrite IH. split.
        -- intros (pre & c0 & post & t0 & -> & Ht0 & Hm0 & Hpre).
           exists (c :: pre), c0, post, t0. repeat split; auto.
           intros c' [<-|Hin]; [now exists text|now apply Hpre].
        -- intros (pre & c0 & post & t0 & E & Ht0 & Hm0 & Hpre).
           destruct pre as [|x pre]; simpl in E; injection E as <- ->.
           ++ congruence.
           ++ exists pre, c0, post, t0. repeat split; auto.
              intros c' Hin. apply Hpre. now right.
    + split; [discriminate|].
      intros (pre & c0 & post & t0 & E & Ht0 & _ & Hpre).
      destruct pre as [|x pre]; simpl in E; injection E as <- ->.
      * congruence.
      * destruct (Hpre c (or_introl eq_refl)) as (t' & Ht' & _). congruence.
Qed.

(** X6.  A table is not selected when the first [<td>] cell of its second row
    cannot be read, whatever its other cells hold: the exception leaves the
    inspection of that table. *)
Theorem unreadable_sampled_cell_rejects_table :
  forall (tables : list Table) (i : nat) (t : Table) (rows : list Row)
         (row : Row) (c : Cell) (cells : list Cell) (e : exn),
    nth_error tables i = Some t ->
    table_rows t = Ok rows ->
    nth_error rows 1 = Some row ->
    query_td row = Ok (c :: cells) ->
    cell_inner_text c = Err e ->
    forall t' nr nc, find_results_table tables <> Some (t', i, nr, nc).
Proof.
  intros tables i t rows row c cells e Hnth Hrows Hrow Hq He t' nr nc Hfind.
  apply find_from_selects in Hfind as (_ & Hnth' & Hchk).
  rewrite Nat.sub_0_r, Hnth in Hnth'. injection Hnth' as <-.
  apply check_table_accepts in Hchk
    as (rows' & row0 & cs & Hrows' & _ & _ & _ & _ & _ & _ & Hscan).
  rewrite Hrows in Hrows'. injection Hrows' as <-.
  destruct rows as [|r0 [|r1 rest]]; try discriminate.
  injection Hrow as ->.
  unfold sampled_rows in Hscan. cbn [skipn firstn] in Hscan.
  destruct rest; cbn [firstn scan_rows] in Hscan; rewrite Hq in Hscan;
    cbn [rbind scan_cells] in Hscan; rewrite He in Hscan; discriminate.
Qed.

(** ** Header detection *)

Lemma has_header_keyword_spec (text : pystr) :
  has_header_keyword text = true <->
  exists keyword pre post, In keyword header_keywords /\ text = pre ++ keyword ++ post.
Proof.
  unfold has_header_keyword. rewrite existsb_exists. split.
  - intros (kw & Hin & Hc). apply contains_spec in Hc as (pre & post & E).
    now exists kw, pre, post.
  - intros (kw & pre & post & Hin & E). exists kw. split; [exact Hin|].
    apply contains_spec. now exists pre, post.
Qed.

(** X7.  Header detection looks for a keyword anywhere in the text of the first
    row.  When the text holds one of "Instrument", "Date", "Doc Type" as a
    substring, no record is numbered 1, whatever the cells of that row are;
    when it holds none, a first row with at least three [<td>] cells yields
    the record numbered 1. *)
Theorem header_is_detected_by_substring :
  forall (tables : list Table) (t : Table) (i nr nc : nat)
         (r0 : Row) (rest : list Row) (text : pystr),
    find_results_table tables = Some (t, i, nr, nc) ->
    table_rows t = Ok (r0 :: rest) ->
    row_inner_text r0 = Ok text ->
    exists records,
      extract_records tables = Ok records
      /\ ((exists keyword pre post,
             In keyword header_keywords /\ text = pre ++ keyword ++ post) ->
          forall r, In r records -> row_number r <> 1)
      /\ ((forall keyword pre post,
             In keyword header_keywords -> text <> pre ++ keyword ++ post) ->
          forall cells, query_td r0 = Ok cells -> 3 <= length cells ->
            exists r, In r records /\ row_number r = 1
                      /\ raw_data r = map cell_text cells).
Proof.
  intros tables t i nr nc r0 rest text Hfind Hrows Htext.
  assert (Hrun : extract_records tables
                 = Ok (parse_rows (r0 :: rest)
                         (if has_header_keyword text then 1 else 0))).
  { unfold extract_records. rewrite Hfind, Hrows. cbn [rbind detect_start_row].
    rewrite Htext. cbn [rbind]. destruct text as [|c text]; reflexivity. }
  eexists. split; [exact Hrun|]. split.
  - intros Hkw. apply has_header_keyword_spec in Hkw. rewrite Hkw.
    intros r Hr.
    apply in_parse_rows in Hr as (j & row & cells & Hj & _ & _ & _ & ->).
    simpl. lia.
  - intros Hno cells Hq Hlen.
    assert (Hkw : has_header_keyword text = false).
    { destruct (has_header_keyword text) eqn:E; [|reflexivity].
      apply has_header_keyword_spec in E as (kw & pre & post & Hin & E).
      now elim (Hno kw pre post Hin). }
    rewrite Hkw. exists (make_record 0 (map cell_text cells)).
    split; [|split; reflexivity].
    apply (good_row_has_its_record (r0 :: rest) 0 0 r0 cells); auto.
Qed.

(** ** More on the workflow steps *)

Section MoreWorkflowProperties.

Context {World Elem : Type} {B : Browser World Elem}.

#[local] Abbreviation state := (@state World Elem).
#[local] Abbreviation call := (@call Elem).

Ltac next_op :=
  match goal with
  | |- context [invoke ?c ?op ?st] =>
      let r := fresh "r" in
      let st' := fresh "st" in
      let Hrun := fresh "Hrun" in
      let Hcalls := fresh "Hcalls" in
      destruct (invoke_calls c op st) as (r & st' & Hrun & Hcalls);
      rewrite Hrun; destruct r; cbn beta iota
  end.

(** X10.  Whenever the results waiter returns, its Boolean is whether the URL of
    the page, as it is on return, contains the results-page path. *)
Theorem wait_result_is_the_url_check :
  forall (st : state) (b : bool) (st' : state),
    wait_for_search_results st = (Ok b, st') ->
    b = contains results_page (page_url (world st')).
Proof.
  intros st b st'.
  unfold wait_for_search_results, wait_for_search_results_body, try_catch, bind,
    wait_for_selector, wait_for_timeout, get_url, ret.
  repeat (next_op;
          [|intros H; injection H as <- <-; reflexivity]).
  destruct (contains results_page (page_url (world st2))) eqn:Hurl.
  - intros H. injection H as <- <-. now rewrite Hurl.
  - next_op; [|intros H; injection H as <- <-; reflexivity].
    destruct (contains results_page (page_url (world st3))) eqn:Hurl2;
      intros H; injection H as <- <-; now rewrite Hurl2.
Qed.

(** X11.  The results waiter makes at most four calls, all of them waits for the
    "searching" indicator or fixed delays: it never clicks, types or
    navigates. *)
Theorem wait_for_search_results_only_waits :
  forall st : state,
    exists r st' l,
      wait_for_search_results st = (r, st')
      /\ calls st' = calls st ++ l
      /\ length l <= 4
      /\ Forall (fun c : call =>
                   (exists s t, c = CWaitForSelector searching_text s t)
                   \/ (exists ms, c = CWaitForTimeout ms)) l.
Proof.
  intros st.
  assert (Hsel : forall s t, (exists s' t', CWaitForSelector searching_text s t
                                            = CWaitForSelector searching_text s' t'
                                              :> call)
                             \/ (exists ms, CWaitForSelector searching_text s t
                                            = CWaitForTimeout ms :> call))
    by (intros s t; left; now exists s, t).
  assert (Htime : forall ms, (exists s' t', CWaitForTimeout ms
                                            = CWaitForSelector searching_text s' t'
                                              :> call)
                             \/ (exists ms', CWaitForTimeout ms = CWaitForTimeout ms' :> call))
    by (intros ms; right; now exists ms).
  unfold wait_for_search_results, wait_for_search_results_body, try_catch, bind,
    wait_for_selector, wait_for_timeout, get_url, ret.
  next_op; [|eexists _, _, [_]; repeat split; [exact Hcalls|simpl; lia|auto]].
  next_op;
    [|eexists _, _, [_; _]; repeat split;
      [rewrite Hcalls0, Hcalls, <- app_assoc; reflexivity|simpl; lia|auto]].
  next_op;
    [|eexists _, _, [_; _; _]; repeat split;
      [rewrite Hcalls1, Hcalls0, Hcalls, <- !app_assoc; reflexivity|simpl; lia|auto 6]].
  destruct (contains results_page (page_url (world st2))).
  - eexists _, _, [_; _; _]; repeat split;
      [rewrite Hcalls1, Hcalls0, Hcalls, <- !app_assoc; reflexivity|simpl; lia|auto 6].
  - next_op.
    + destruct (contains results_page (page_url (world st3)));
        eexists _, _, [_; _; _; _]; (repeat split;
          [rewrite Hcalls2, Hcalls1, Hcalls0, Hcalls, <- !app_assoc; reflexivity
          |simpl; lia|auto 8]).
    + eexists _, _, [_; _; _; _]; repeat split;
          [rewrite Hcalls2, Hcalls1, Hcalls0, Hcalls, <- !app_assoc; reflexivity
          |simpl; lia|auto 8].
Qed.


(** *** The filter selector *)

(** X12.  When the wait for the checkbox answers no element, the filter selector
    raises the [RuntimeError] "BRAND checkbox not found" having made that one
    call. *)
Theorem missing_checkbox_is_a_runtime_error :
  forall (st : state) (w1 : World),
    page_wait_for_selector BRAND_CHECKBOX_ID StateDefault CHECKBOX_TIMEOUT (world st)
    = (Ok None, w1) ->
    select_brand_document_type st
    = (Err (RuntimeError (py "BRAND checkbox not found")),
       {| world := w1;
          calls := calls st
                   ++ [CWaitForSelector BRAND_CHECKBOX_ID StateDefault CHECKBOX_TIMEOUT] |}).
Proof.
  intros st w1 Hwait.
  unfold select_brand_document_type, try_catch, bind, wait_for_selector, raise.
  now rewrite (invoke_run _ _ st _ _ Hwait).
Qed.

(** X13.  When the checkbox is found unchecked, the filter selector clicks it once,
    waits 2000 ms and reads the state again; it returns normally whether or
    not the second read finds the box checked. *)
Theorem unregistered_selection_is_not_an_error :
  forall (st : state) (checkbox : Elem) (w1 w2 w3 w4 w5 : World) (b : bool),
    page_wait_for_selector BRAND_CHECKBOX_ID StateDefault CHECKBOX_TIMEOUT (world st)
    = (Ok (Some checkbox), w1) ->
    elem_is_checked checkbox w1 = (Ok false, w2) ->
    elem_click checkbox w2 = (Ok tt, w3) ->
    page_wait_for_timeout 2000 w3 = (Ok tt, w4) ->
    elem_is_checked checkbox w4 = (Ok b, w5) ->
    select_brand_document_type st
    = (Ok tt,
       {| world := w5;
          calls := calls st
                   ++ [ CWaitForSelector BRAND_CHECKBOX_ID StateDefault CHECKBOX_TIMEOUT;
                        CIsChecked checkbox;
                        CElemClick checkbox;
                        CWaitForTimeout 2000;
                        CIsChecked checkbox ] |}).
Proof.
  intros st checkbox w1 w2 w3 w4 w5 b H1 H2 H3 H4 H5.
  unfold select_brand_document_type, try_catch, bind, wait_for_selector,
    wait_for_timeout, ret.
  rewrite (invoke_run _ _ st _ _ H1).
  rewrite (invoke_run (CIsChecked checkbox) (elem_is_checked checkbox)
             {| world := w1; calls := _ |} _ _ H2).
  rewrite (invoke_run (CElemClick checkbox) (elem_click checkbox)
             {| world := w2; calls := _ |} _ _ H3).
  rewrite (invoke_run (CWaitForTimeout 2000) (page_wait_for_timeout 2000)
             {| world := w3; calls := _ |} _ _ H4).
  rewrite (invoke_run (CIsChecked checkbox) (elem_is_checked checkbox)
             {| world := w4; calls := _ |} _ _ H5).
  cbn [calls]. now rewrite <- !app_assoc.
Qed.

(** *** The search submitter *)

Lemma try_selectors_calls (selectors : list pystr) :
  forall (st : state) (clicked : bool) (st' : state),
    try_selectors selectors st = (Ok clicked, st') ->
    if clicked then
      exists pre selector post,
        selectors = pre ++ selector :: post
        /\ calls st' = calls st ++ map CLocatorCount (pre ++ [selector])
                                ++ [CClick selector]
    else calls st' = calls st ++ map CLocatorCount selectors.
Proof.
  induction selectors as [|selector rest IH]; intros st clicked st'.
  - cbn [try_selectors]. unfold ret. intros H. injection H as <- <-.
    now rewrite app_nil_r.
  - cbn [try_selectors]. unfold bind. next_op; [|discriminate].
    destruct (0 <? a).
    + next_op; [|discriminate]. unfold ret. intros H. injection H as <- <-.
      exists [], selector, rest. split; [reflexivity|].
      rewrite Hcalls0, Hcalls, <- app_assoc. reflexivity.
    + intros H. specialize (IH _ _ _ H). destruct clicked.
      * destruct IH as (pre & sel & post & -> & Hc).
        exists (selector :: pre), sel, post. split; [reflexivity|].
        rewrite Hc, Hcalls, <- !app_assoc. reflexivity.
      * rewrite IH, Hcalls, <- app_assoc. reflexivity.
Qed.

(** X14.  When the search submitter returns, it has probed the candidate selectors
    in their listed order and ended with exactly one submit action: a click
    on the last selector probed, or the Enter key after all four were
    probed. *)
Theorem search_is_submitted_once :
  forall st st' : state,
    click_search_button st = (Ok tt, st') ->
    (exists pre selector post,
       search_selectors = pre ++ selector :: post
       /\ calls st' = calls st ++ map CLocatorCount (pre ++ [selector])
                               ++ [CClick selector])
    \/ calls st' = calls st ++ map CLocatorCount search_selectors
                            ++ [CPress (py "Enter")].
Proof.
  intros st st'. unfold click_search_button, try_catch, bind.
  destruct (try_selectors search_selectors st) as [[clicked|e] st1] eqn:Htry;
    [|unfold raise; discriminate].
  pose proof (try_selectors_calls _ _ _ _ Htry) as Hcalls.
  destruct clicked.
  - unfold ret. intros H. injection H as <-. now left.
  - next_op; [|unfold raise; discriminate].
    intros H. injection H as _ <-. right.
    rewrite Hcalls0, Hcalls, <- app_assoc. reflexivity.
Qed.


Lemma try_selectors_first_match (count : pystr -> nat) (selectors : list pystr) :
  (forall selector w, fst (page_locator_count selector w) = Ok (count selector)) ->
  (forall selector w, fst (page_click selector w) = Ok tt) ->
  forall st : state,
    exists st' probed,
      calls st' = calls st ++ map CLocatorCount probed
                           ++ match find (fun selector => 0 <? count selector) selectors with
                              | Some selector => [CClick selector]
                              | None => []
                              end
      /\ try_selectors selectors st
         = (Ok match find (fun selector => 0 <? count selector) selectors with
               | Some _ => true
               | None => false
               end, st').
Proof.
  intros Hcount Hclick. induction selectors as [|selector rest IH]; intros st.
  - exists st, []. split; [now rewrite app_nil_r|reflexivity].
  - cbn [try_selectors find]. unfold bind, invoke.
    specialize (Hcount selector (world st)).
    destruct (page_locator_count selector (world st)) as [r w1].
    cbn [fst] in Hcount. subst r.
    destruct (0 <? count selector).
    + specialize (Hclick selector w1).
      cbn [world]. destruct (page_click selector w1) as [r w2].
      cbn [fst] in Hclick. subst r.
      eexists _, [selector]. split; [|reflexivity].
      cbn [calls map app]. now rewrite <- app_assoc.
    + destruct (IH {| world := w1; calls := calls st ++ [CLocatorCount selector] |})
        as (st' & probed & Hcalls & Hrun).
      exists st', (selector :: probed). split; [|exact Hrun].
      rewrite Hcalls. cbn [calls map app]. now rewrite <- !app_assoc.
Qed.

(** X15.  Where the element counts do not change while probing and the click and
    the key press succeed, the search submitter clicks the first listed
    selector with a positive count, and presses Enter when there is none. *)
Theorem first_matching_selector_is_clicked :
  forall count : pystr -> nat,
    (forall selector w, fst (page_locator_count selector w) = Ok (count selector)) ->
    (forall selector w, fst (page_click selector w) = Ok tt) ->
    (forall key w, fst (keyboard_press key w) = Ok tt) ->
    forall st : state,
      exists st' probed,
        click_search_button st = (Ok tt, st')
        /\ calls st' = calls st ++ map CLocatorCount probed
                                ++ [match find (fun selector => 0 <? count selector)
                                               search_selectors with
                                    | Some selector => CClick selector
                                    | None => CPress (py "Enter")
                                    end].
Proof.
  intros count Hcount Hclick Hpress st.
  destruct (try_selectors_first_match count search_selectors Hcount Hclick st)
    as (st1 & probed & Hcalls & Hrun).
  unfold click_search_button, try_catch, bind. rewrite Hrun.
  destruct (find (fun selector => 0 <? count selector) search_selectors) as [selector|].
  - exists st1, probed. split; [reflexivity|exact Hcalls].
  - unfold invoke. specialize (Hpress (py "Enter") (world st1)).
    destruct (keyboard_press (py "Enter") (world st1)) as [r w2].
    cbn [fst] in Hpress. subst r.
    eexists _, probed. split; [reflexivity|].
    cbn [calls]. rewrite Hcalls, app_nil_r, <- app_assoc. reflexivity.
Qed.

(** *** The table extractor *)


(** X8.  When the text of the first row of the selected table cannot be read, the
    extractor returns the empty sequence: the failure is outside the per-row
    handler, so the records of the other rows are lost as well. *)
Theorem unreadable_first_row_discards_all_rows :
  forall (st : state) (found : option Elem) (w1 w2 : World)
         (tables : list Table) (t : Table) (i nr nc : nat)
         (r0 : Row) (rest : list Row) (e : exn),
    page_wait_for_selector (py "table") StateDefault TABLE_WAIT_TIMEOUT (world st)
    = (Ok found, w1) ->
    page_query_tables w1 = (Ok tables, w2) ->
    find_results_table tables = Some (t, i, nr, nc) ->
    table_rows t = Ok (r0 :: rest) ->
    row_inner_text r0 = Err e ->
    exists st', scrape_results_table st = (Ok [], st').
Proof.
  intros st found w1 w2 tables t i nr nc r0 rest e Hwait Hquery Hfind Hrows Htext.
  unfold scrape_results_table, try_catch, bind, wait_for_selector, lift, ret.
  rewrite (invoke_run _ _ st _ _ Hwait).
  rewrite (invoke_run CQueryTables page_query_tables
             {| world := w1; calls := _ |} _ _ Hquery).
  unfold extract_records. rewrite Hfind, Hrows. cbn [rbind detect_start_row].
  rewrite Htext. cbn [rbind]. eexists. reflexivity.
Qed.


(** *** The persister *)




(** *** The run *)

(** X19.  Once the page is created, [main] ends with the calls that close the
    browser and stop Playwright, whatever the steps returned, and it returns
    normally only if the steps did; when the launch fails, Playwright is
    stopped and [main] raises. *)
Theorem browser_is_always_closed :
  forall st st1 : state,
    invoke CStart playwright_start st = (Ok tt, st1) ->
    (forall (st2 st3 st4 st5 : state) (r : result unit),
       invoke CLaunch chromium_launch st1 = (Ok tt, st2) ->
       invoke CNewContext browser_new_context st2 = (Ok tt, st3) ->
       invoke CNewPage context_new_page st3 = (Ok tt, st4) ->
       run_steps st4 = (r, st5) ->
       exists r' st',
         main st = (r', st')
         /\ calls st' = calls st5 ++ [CClose; CStop]
         /\ (r' = Ok tt -> r = Ok tt))
    /\ (forall (e : exn) (st2 : state),
          invoke CLaunch chromium_launch st1 = (Err e, st2) ->
          exists r' st',
            main st = (r', st')
            /\ calls st' = calls st2 ++ [CStop]
            /\ r' <> Ok tt).
Proof.
  intros st st1 H0. split.
  - intros st2 st3 st4 st5 r H1 H2 H3 H4.
    unfold main, bind, try_finally. rewrite H0, H1, H2, H3, H4.
    destruct (invoke_calls CClose browser_close st5) as (rc & st6 & Hrc & Hc6).
    destruct (invoke_calls CStop playwright_stop st6) as (rs & st7 & Hrs & Hc7).
    rewrite Hrc.
    assert (Hc : calls st7 = calls st5 ++ [CClose; CStop])
      by (rewrite Hc7, Hc6, <- app_assoc; reflexivity).
    destruct rc as [[]|ec]; rewrite Hrs; destruct rs as [[]|es];
      eexists _, _; (split; [reflexivity|split; [exact Hc|]]);
      try discriminate; auto.
  - intros e st2 H1. unfold main, bind, try_finally. rewrite H0, H1.
    destruct (invoke_calls CStop playwright_stop st2) as (rs & st3 & Hrs & Hc3).
    rewrite Hrs. destruct rs as [[]|es]; eexists _, _;
      (split; [reflexivity|split; [exact Hc3|discriminate]]).
Qed.

End MoreWorkflowProperties.

Section FileProperties.

Context {World Elem : Type} {B : Browser World Elem}.

#[local] Abbreviation state := (@state World Elem).
#[local] Abbreviation M := (@M World Elem).
#[local] Abbreviation leaves_files_alone := (@leaves_files_alone World Elem).

Lemma quiet_ret {A} (a : A) : leaves_files_alone (ret a : M A).
Proof. intros st. exists (Ok a), st, []. rewrite app_nil_r. auto. Qed.

Lemma quiet_raise {A} (e : exn) : leaves_files_alone (raise e : M A).
Proof. intros st. exists (Err e), st, []. rewrite app_nil_r. auto. Qed.

Lemma quiet_lift {A} (r : result A) : leaves_files_alone (lift r : M A).
Proof. intros st. exists r, st, []. rewrite app_nil_r. auto. Qed.

Lemma quiet_get_url : leaves_files_alone (get_url : M pystr).
Proof. intros st. eexists _, st, []. rewrite app_nil_r. split; [reflexivity|auto]. Qed.

Lemma quiet_invoke {A} (c : call) (op : World -> result A * World) :
  is_file_call c = false -> leaves_files_alone (invoke c op).
Proof.
  intros Hc st. destruct (invoke_calls c op st) as (r & st' & Hrun & Hcalls).
  exists r, st', [c]. auto.
Qed.

Lemma quiet_bind {A C} (m : M A) (k : A -> M C) :
  leaves_files_alone m -> (forall a, leaves_files_alone (k a)) ->
  leaves_files_alone (bind m k).
Proof.
  intros Hm Hk st. destruct (Hm st) as (r & st1 & l1 & Hrun & Hcalls & Hl1).
  unfold bind. rewrite Hrun. destruct r as [a|e].
  - destruct (Hk a st1) as (r2 & st2 & l2 & Hrun2 & Hcalls2 & Hl2).
    exists r2, st2, (l1 ++ l2). rewrite Hrun2, Hcalls2, Hcalls, <- app_assoc.
    repeat split. apply Forall_app. auto.
  - exists (Err e), st1, l1. auto.
Qed.

Lemma quiet_try_catch {A} (m : M A) (handler : exn -> M A) :
  leaves_files_alone m -> (forall e, leaves_files_alone (handler e)) ->
  leaves_files_alone (try_catch m handler).
Proof.
  intros Hm Hh st. destruct (Hm st) as (r & st1 & l1 & Hrun & Hcalls & Hl1).
  unfold try_catch. rewrite Hrun. destruct r as [a|e].
  - exists (Ok a), st1, l1. auto.
  - destruct (Hh e st1) as (r2 & st2 & l2 & Hrun2 & Hcalls2 & Hl2).
    exists r2, st2, (l1 ++ l2). rewrite Hrun2, Hcalls2, Hcalls, <- app_assoc.
    repeat split. apply Forall_app. auto.
Qed.

Ltac quiet :=
  repeat first
    [ apply quiet_ret | apply quiet_raise | apply quiet_lift | apply quiet_get_url
    | apply quiet_invoke; reflexivity
    | apply quiet_try_catch; [|intros ?]
    | apply quiet_bind; [|intros ?]
    | match goal with |- leaves_files_alone (if ?b then _ else _) => destruct b end
    | match goal with |- leaves_files_alone (match ?o with Some _ => _ | None => _ end) =>
        destruct o end ].

Lemma quiet_select : leaves_files_alone select_brand_document_type.
Proof. unfold select_brand_document_type, wait_for_selector, wait_for_timeout. quiet. Qed.

Lemma quiet_try_selectors (selectors : list pystr) :
  leaves_files_alone (try_selectors selectors).
Proof. induction selectors as [|s rest IH]; cbn [try_selectors]; quiet; try exact IH. Qed.

Lemma quiet_click : leaves_files_alone click_search_button.
Proof. unfold click_search_button. quiet; try apply quiet_try_selectors. Qed.

Lemma quiet_wait : leaves_files_alone wait_for_search_results.
Proof.
  unfold wait_for_search_results, wait_for_search_results_body, wait_for_selector,
    wait_for_timeout. quiet.
Qed.

Lemma quiet_scrape : leaves_files_alone scrape_results_table.
Proof. unfold scrape_results_table, wait_for_selector. quiet. Qed.

Lemma save_results_opens_csv_first (data : list BrandRecord) (st : state) :
  data <> [] ->
  exists st' tail,
    save_results data st = (Ok tt, st')
    /\ calls st' = calls st ++ COpen OUTPUT_CSV :: tail.
Proof.
  intros Hne. destruct data as [|first rest]; [congruence|].
  cbn [save_results]. unfold bind, try_catch, ret.
  destruct (save_csv_calls (first :: rest) st) as (r1 & st1 & l1 & Hrun1 & Hc1).
  destruct (save_jsonl_calls (first :: rest) st1) as (r2 & st2 & l2 & Hrun2 & Hc2).
  rewrite Hrun1.
  assert (Hc : calls st2 = calls st ++ COpen OUTPUT_CSV :: l1 ++ COpen OUTPUT_JSONL :: l2)
    by (rewrite Hc2, Hc1, <- app_assoc; reflexivity).
  destruct r1 as [[]|e1]; rewrite Hrun2; destruct r2 as [[]|e2];
    exists st2, (l1 ++ COpen OUTPUT_JSONL :: l2); (split; [reflexivity|exact Hc]).
Qed.

(** X18.  In a run of the six steps no file operation happens before the
    persister, and the persister acts on files only when the extractor
    returned at least one record; the first file operation is then the
    opening of the CSV file. *)
Theorem files_are_touched_only_for_records :
  forall st : state,
    exists r st' l1 l2,
      run_steps st = (r, st')
      /\ calls st' = calls st ++ l1 ++ l2
      /\ Forall (fun c => is_file_call c = false) l1
      /\ (l2 = []
          \/ exists st4 data st5 rest,
               scrape_results_table st4 = (Ok data, st5)
               /\ data <> []
               /\ calls st5 = calls st ++ l1
               /\ l2 = COpen OUTPUT_CSV :: rest).
Proof.
  intros st. unfold run_steps, try_catch, bind, raise.
  destruct (quiet_invoke (CGoto SEARCH_ENTRY_URL) (page_goto SEARCH_ENTRY_URL)
              eq_refl st) as (r1 & st1 & l1 & E1 & C1 & F1).
  rewrite E1. destruct r1 as [[]|e];
    [|exists (Err e), st1, l1, []; rewrite app_nil_r; auto].
  destruct (quiet_select st1) as (r2 & st2 & l2 & E2 & C2 & F2).
  rewrite E2. destruct r2 as [[]|e];
    [|exists (Err e), st2, (l1 ++ l2), []; rewrite app_nil_r, C2, C1, <- app_assoc;
      repeat split; auto; apply Forall_app; auto].
  destruct (quiet_click st2) as (r3 & st3 & l3 & E3 & C3 & F3).
  rewrite E3. destruct r3 as [[]|e];
    [|exists (Err e), st3, (l1 ++ l2 ++ l3), [];
      rewrite app_nil_r, C3, C2, C1, <- !app_assoc;
      repeat split; auto; repeat (apply Forall_app; split); auto].
  destruct (quiet_wait st3) as (r4 & st4 & l4 & E4 & C4 & F4).
  rewrite E4. destruct r4 as [reached|e];
    [|exists (Err e), st4, (l1 ++ l2 ++ l3 ++ l4), [];
      rewrite app_nil_r, C4, C3, C2, C1, <- !app_assoc;
      repeat split; auto; repeat (apply Forall_app; split); auto].
  destruct (quiet_scrape st4) as (r5 & st5 & l5 & E5 & C5 & F5).
  rewrite E5.
  assert (HC : calls st5 = calls st ++ l1 ++ l2 ++ l3 ++ l4 ++ l5)
    by (rewrite C5, C4, C3, C2, C1, <- !app_assoc; reflexivity).
  assert (HF : Forall (fun c => is_file_call c = false) (l1 ++ l2 ++ l3 ++ l4 ++ l5))
    by (repeat (apply Forall_app; split); auto).
  destruct r5 as [data|e];
    [|exists (Err e), st5, (l1 ++ l2 ++ l3 ++ l4 ++ l5), [];
      rewrite app_nil_r; auto].
  destruct data as [|first rest].
  - exists (Ok tt), st5, (l1 ++ l2 ++ l3 ++ l4 ++ l5), [].
    rewrite app_nil_r. auto.
  - destruct (save_results_opens_csv_first (first :: rest) st5 ltac:(discriminate))
      as (st6 & tail & E6 & C6).
    rewrite E6. exists (Ok tt), st6, (l1 ++ l2 ++ l3 ++ l4 ++ l5), (COpen OUTPUT_CSV :: tail).
    repeat split; auto.
    + rewrite C6, HC, <- !app_assoc. reflexivity.
    + right. exists st4, (first :: rest), st5, tail. repeat split; auto. discriminate.
Qed.

End FileProperties.

(** ** The written line is printable ASCII *)

Lemma hexdigit_ascii (d : N) : (d < 16 -> hexdigit d <= 126)%N.
Proof. intros Hd. unfold hexdigit. destruct (N.ltb_spec d 10); lia. Qed.

Lemma u_escape_ascii (n x : N) : In x (u_escape n) -> (x <= 126)%N.
Proof.
  unfold u_escape, hex4. cbn [In].
  intros [<-|[<-|[<-|[<-|[<-|[<-|[]]]]]]]; try discriminate;
    apply hexdigit_ascii; apply N.mod_lt; discriminate.
Qed.

Lemma escape_char_ascii (c x : N) : In x (escape_char c) -> (x <= 126)%N.
Proof.
  unfold escape_char.
  repeat match goal with
         | |- In _ (if (?a =? ?b)%N then _ else _) -> _ =>
             destruct (N.eqb_spec a b);
             [cbn [In]; intros [<-|[<-|[]]]; discriminate|]
         end.
  destruct (N.leb_spec 32 c) as [H32|H32]; cbn [andb].
  - destruct (N.leb_spec c 126) as [H126|H126].
    + cbn [In]. intros [<-|[]]. assumption.
    + destruct (N.ltb_spec c 65536) as [Hb|Hb]; [apply u_escape_ascii|].
      intros Hx. apply in_app_or in Hx as [Hx|Hx]; eapply u_escape_ascii; eassumption.
  - destruct (N.ltb_spec c 65536) as [Hb|Hb]; [apply u_escape_ascii|].
    intros Hx. apply in_app_or in Hx as [Hx|Hx]; eapply u_escape_ascii; eassumption.
Qed.

Lemma encode_string_ascii (s : pystr) :
  Forall (fun x => 32 <= x <= 126)%N (encode_string s).
Proof.
  apply Forall_forall. intros x Hx. split; [now apply (encode_string_printable s)|].
  unfold encode_string in Hx. cbn [In] in Hx. destruct Hx as [<-|Hx]; [discriminate|].
  apply in_app_or in Hx as [Hx|[<-|[]]]; [|discriminate].
  apply in_flat_map in Hx as (c & _ & Hx). eapply escape_char_ascii; eassumption.
Qed.

Lemma uint_chars_ascii (u : Decimal.uint) :
  Forall (fun x => 32 <= x <= 126)%N (uint_chars u).
Proof. induction u; cbn [uint_chars]; constructor; auto; split; discriminate. Qed.

Lemma encode_int_ascii (z : Z) : Forall (fun x => 32 <= x <= 126)%N (encode_int z).
Proof.
  unfold encode_int. destruct (Z.to_int z); [apply uint_chars_ascii|].
  constructor; [split; discriminate|apply uint_chars_ascii].
Qed.

Lemma join_ascii (sep : pystr) (parts : list pystr) :
  Forall (fun x => 32 <= x <= 126)%N sep ->
  Forall (Forall (fun x => 32 <= x <= 126)%N) parts ->
  Forall (fun x => 32 <= x <= 126)%N (join sep parts).
Proof.
  intros Hsep. induction 1 as [|p parts Hp Hparts IH]; [constructor|].
  destruct parts as [|q parts]; [exact Hp|].
  change (join sep (p :: q :: parts)) with (p ++ sep ++ join sep (q :: parts)).
  apply Forall_app. split; [exact Hp|]. apply Forall_app. split; [exact Hsep|exact IH].
Qed.

(** X20.  The JSON text written for a record consists of printable ASCII code
    points (32 to 126) only, whatever code points the cell texts hold. *)
Theorem jsonl_line_is_printable_ascii :
  forall r : BrandRecord,
    Forall (fun x => 32 <= x <= 126)%N (json_dumps (record_dict r)).
Proof.
  intros r.
  assert (Hsep : Forall (fun x => 32 <= x <= 126)%N item_separator)
    by (repeat constructor; discriminate).
  assert (Hkey : Forall (fun x => 32 <= x <= 126)%N key_separator)
    by (repeat constructor; discriminate).
  unfold record_dict. rewrite dumps_object.
  constructor; [split; discriminate|].
  apply Forall_app. split; [|repeat constructor; discriminate].
  apply join_ascii; [exact Hsep|].
  repeat (apply Forall_cons;
          [unfold dump_member; cbn [fst snd]; apply Forall_app; split;
           [apply encode_string_ascii|];
           apply Forall_app; split; [exact Hkey|] |]);
    try apply Forall_nil; try apply encode_string_ascii.
  - apply encode_int_ascii.
  - rewrite dumps_string_array. constructor; [split; discriminate|].
    apply Forall_app. split; [|repeat constructor; discriminate].
    apply join_ascii; [exact Hsep|].
    apply Forall_forall. intros p Hp. apply in_map_iff in Hp as (s & <- & _).
    apply encode_string_ascii.
Qed.

(** ** Concrete instances of the further properties *)

Lemma cell_texts_are_normalised_witness :
  contains nbsp (py "DOE JOHN") = false
  /\ py_isspace 68 = false /\ py_isspace 78 = false.
Proof.
  exact (cell_texts_are_normalised sample_rows 1
           (make_record 1 [py "2021-001"; py "01/02/2021"; py "BRAND"; py "DOE JOHN"])
           (py "DOE JOHN")
           (or_introl eq_refl)
           (or_intror (or_intror (or_intror (or_introl eq_refl))))).
Defined.

Lemma unreadable_sampled_cell_rejects_table_witness :
  find_results_table [layout_table; unreadable_sample_table; sample_table]
  <> Some (unreadable_sample_table, 1, 3, 3).
Proof.
  exact (unreadable_sampled_cell_rejects_table
           [layout_table; unreadable_sample_table; sample_table] 1
           unreadable_sample_table _ _ unreadable_td _ _
           eq_refl eq_refl eq_refl eq_refl eq_refl
           unreadable_sample_table 3 3).
Defined.

Lemma header_is_detected_by_substring_witness :
  exists records,
    extract_records [layout_table; sample_table] = Ok records
    /\ forall r, In r records -> row_number r <> 1.
Proof.
  destruct (header_is_detected_by_substring [layout_table; sample_table]
              sample_table 1 4 3 _ _ _ eq_refl eq_refl eq_refl)
    as (records & Hrun & Hheader & _).
  exists records. split; [exact Hrun|]. apply Hheader.
  exists (py "Instrument"), [], (py " Date Doc Type").
  split; [left; reflexivity|reflexivity].
Defined.

Lemma unreadable_first_row_discards_all_rows_witness :
  exists st',
    scrape_results_table (B := scripted unreadable_header_scenario) initial_state
    = (Ok [], st').
Proof.
  exact (@unreadable_first_row_discards_all_rows nat unit
           (scripted unreadable_header_scenario) initial_state (Some tt) 1 2
           [unreadable_header_table] unreadable_header_table 0 3 3 _ _ _
           eq_refl eq_refl eq_refl eq_refl eq_refl).
Defined.

Lemma wait_result_is_the_url_check_witness :
  true = contains results_page SEARCH_RESULTS_URL.
Proof.
  exact (@wait_result_is_the_url_check nat unit (scripted sample_scenario)
           initial_state true
           (snd (wait_for_search_results (B := scripted sample_scenario) initial_state))
           eq_refl).
Defined.

Lemma missing_checkbox_is_a_runtime_error_witness :
  select_brand_document_type (B := scripted missing_checkbox_scenario) initial_state
  = (Err (RuntimeError (py "BRAND checkbox not found")),
     {| world := 1;
        calls := [CWaitForSelector BRAND_CHECKBOX_ID StateDefault CHECKBOX_TIMEOUT] |}).
Proof.
  exact (@missing_checkbox_is_a_runtime_error nat unit
           (scripted missing_checkbox_scenario) initial_state 1 eq_refl).
Defined.

Lemma unregistered_selection_is_not_an_error_witness :
  select_brand_document_type (B := scripted indicator_timeout_scenario) initial_state
  = (Ok tt,
     {| world := 5;
        calls := [ CWaitForSelector BRAND_CHECKBOX_ID StateDefault CHECKBOX_TIMEOUT;
                   CIsChecked tt; CElemClick tt; CWaitForTimeout 2000; CIsChecked tt ] |}).
Proof.
  exact (@unregistered_selection_is_not_an_error nat unit
           (scripted indicator_timeout_scenario) initial_state tt 1 2 3 4 5 false
           eq_refl eq_refl eq_refl eq_refl eq_refl).
Defined.

Lemma search_is_submitted_once_witness :
  (exists pre selector post,
     search_selectors = pre ++ selector :: post
     /\ [ CLocatorCount (py "input[type='submit'][value*='Search']");
          CClick (py "input[type='submit'][value*='Search']") ]
        = [] ++ map (@CLocatorCount unit) (pre ++ [selector]) ++ [CClick selector])
  \/ [ CLocatorCount (py "input[type='submit'][value*='Search']");
       CClick (py "input[type='submit'][value*='Search']") ]
     = [] ++ map (@CLocatorCount unit) search_selectors ++ [CPress (py "Enter")].
Proof.
  exact (@search_is_submitted_once nat unit (scripted sample_scenario)
           initial_state
           (snd (click_search_button (B := scripted sample_scenario) initial_state))
           eq_refl).
Defined.

Lemma first_matching_selector_is_clicked_witness :
  exists st' probed,
    click_search_button (B := scripted indicator_timeout_scenario) initial_state
    = (Ok tt, st')
    /\ calls st' = [] ++ map CLocatorCount probed ++ [CPress (py "Enter")].
Proof.
  exact (@first_matching_selector_is_clicked nat unit
           (scripted indicator_timeout_scenario) (fun _ => 0)
           (fun _ _ => eq_refl) (fun _ _ => eq_refl) (fun _ _ => eq_refl)
           initial_state).
Defined.

Lemma browser_is_always_closed_witness :
  exists r' st',
    main (B := scripted no_checkbox_scenario) initial_state = (r', st')
    /\ calls st'
       = calls (snd (run_steps (B := scripted no_checkbox_scenario) page_created_state))
         ++ [CClose; CStop]
    /\ (r' = Ok tt -> Err PwTimeoutError = Ok tt).
Proof.
  destruct (@browser_is_always_closed nat unit (scripted no_checkbox_scenario)
              initial_state {| world := 1; calls := [CStart] |} eq_refl)
    as [Hclosed _].
  exact (Hclosed {| world := 2; calls := [CStart; CLaunch] |}
           {| world := 3; calls := [CStart; CLaunch; CNewContext] |}
           page_created_state
           (snd (run_steps (B := scripted no_checkbox_scenario) page_created_state))
           (Err PwTimeoutError) eq_refl eq_refl eq_refl eq_refl).
Defined.
